(** * Codex code generator: a shallow embedding of [main.py]

    The script reads its configuration from the process environment,
    wraps user text into one of five prompt shapes, sends a two-message
    chat-completion request and prints the answer.  This development
    embeds the script in Rocq and proves its documented behaviour.

    Conventions of the embedding.
    - A Python [str] is a [string] whose characters are code points
      below 256; the builtins below are the CPython ones restricted to
      that range.
    - A Python [float] is a primitive binary64 [float].
    - [os.environ], after [load_dotenv()] has run, is a finite map from
      names to values.
    - Terminal input is the list of lines still to be read; terminal
      output is the list of chunks written so far.
    - The remote endpoint is an arbitrary function from the number of
      calls made so far and the request to either a raised exception or
      a response.  Asynchronous signals are outside the model. *)

From Stdlib Require Import ZArith Ascii String List Floats.
From stdpp Require Import gmap strings list pretty.

Set Warnings "-inexact-float".
Local Open Scope Z_scope.

(** * Python builtins used by the script *)

Module Py.

(** ** Exceptions

    Only the class and the text of [str(e)] are observed by the script.
    Every class below derives from [Exception]; [OtherException] stands
    for whatever the client library raises. *)

Inductive exc_class :=
| ValueError
| EOFError
| IndexError
| OtherException (name : string).

Record exception := Exc { exc_type : exc_class; exc_str : string }.

Definition is_ValueError (e : exception) : bool :=
  match exc_type e with ValueError => true | _ => false end.

(** [except Exception] catches every exception of the model. *)
Definition is_Exception (_ : exception) : bool := true.

(** ** Characters *)

Definition ord (c : ascii) : Z := Z.of_N (N_of_ascii c).

Definition between (lo hi : Z) (c : ascii) : bool :=
  (lo <=? ord c) && (ord c <=? hi).

(** [str.isspace] on one character. *)
Definition isspace (c : ascii) : bool :=
  between 9 13 c || between 28 32 c || (ord c =? 133) || (ord c =? 160).

(** The whitespace that [int()] and [float()] skip: the non-ASCII
    spaces are first turned into [' '], the ASCII separators 0x1c-0x1f
    are not. *)
Definition isspace_number (c : ascii) : bool :=
  between 9 13 c || (ord c =? 32) || (ord c =? 133) || (ord c =? 160).

Definition chr (n : Z) : ascii := ascii_of_N (Z.to_N n).

Definition isdigit (c : ascii) : bool := between 48 57 c.

Definition digit_value (c : ascii) : Z := ord c - 48.

(** [str.lower] on one character: A-Z and the upper-case letters of the
    Latin-1 supplement (0xc0-0xde without the multiplication sign). *)
Definition lower_char (c : ascii) : ascii :=
  if between 65 90 c || (between 192 222 c && negb (ord c =? 215))
  then chr (ord c + 32)
  else c.

(** ** Strings *)

Fixpoint lower (s : string) : string :=
  match s with
  | EmptyString => EmptyString
  | String c s' => String (lower_char c) (lower s')
  end.

Fixpoint lstrip_with (sp : ascii -> bool) (s : string) : string :=
  match s with
  | EmptyString => EmptyString
  | String c s' => if sp c then lstrip_with sp s' else s
  end.

Fixpoint rstrip_with (sp : ascii -> bool) (s : string) : string :=
  match s with
  | EmptyString => EmptyString
  | String c s' =>
      match rstrip_with sp s' with
      | EmptyString => if sp c then EmptyString else String c EmptyString
      | r => String c r
      end
  end.

Definition strip_with (sp : ascii -> bool) (s : string) : string :=
  rstrip_with sp (lstrip_with sp s).

(** [s.strip()] *)
Definition strip (s : string) : string := strip_with isspace s.

(** The newline character as a one-character string. *)
Definition NL : string := String (chr 10) "".

(** [sep.join(l)] *)
Fixpoint join (sep : string) (l : list string) : string :=
  match l with
  | [] => ""
  | [x] => x
  | x :: l' => x +:+ sep +:+ join sep l'
  end.

(** Truth value of a [str]: false exactly for the empty string. *)
Definition truthy (s : string) : bool :=
  match s with EmptyString => false | String _ _ => true end.

(** Truth value of an optional [str]: [None] and [""] are false. *)
Definition truthy_opt (o : option string) : bool :=
  match o with None => false | Some s => truthy s end.

(** [x in l] for a list of strings. *)
Definition str_in (x : string) (l : list string) : bool :=
  existsb (String.eqb x) l.

(** ** [repr] of a string *)

Fixpoint contains_char (c : ascii) (s : string) : bool :=
  match s with
  | EmptyString => false
  | String d s' => Ascii.eqb c d || contains_char c s'
  end.

Definition hex_digit (n : Z) : ascii :=
  if n <? 10 then chr (48 + n) else chr (87 + n).

Definition backslash : ascii := chr 92.
Definition single_quote : ascii := chr 39.
Definition double_quote : ascii := chr 34.

Definition escape (c : ascii) : string := String backslash (String c "").

(** [str.isprintable] on one character. *)
Definition isprintable (c : ascii) : bool :=
  between 32 126 c || (between 161 255 c && negb (ord c =? 173)).

Definition repr_char (quote c : ascii) : string :=
  if Ascii.eqb c quote || Ascii.eqb c backslash then escape c
  else if ord c =? 9 then escape "t"
  else if ord c =? 10 then escape "n"
  else if ord c =? 13 then escape "r"
  else if isprintable c then String c ""
  else escape "x" +:+ String (hex_digit (ord c / 16))
                        (String (hex_digit (ord c mod 16)) "").

Fixpoint repr_body (quote : ascii) (s : string) : string :=
  match s with
  | EmptyString => EmptyString
  | String c s' => repr_char quote c +:+ repr_body quote s'
  end.

(** [repr(s)]: single quotes unless the string has a single quote and
    no double quote. *)
Definition repr (s : string) : string :=
  let quote :=
    if contains_char single_quote s && negb (contains_char double_quote s)
    then double_quote else single_quote in
  String quote (repr_body quote s) +:+ String quote "".

Fixpoint take (n : nat) (s : string) : string :=
  match n, s with
  | S n', String c s' => String c (take n' s')
  | _, _ => EmptyString
  end.

(** ** [int(s)] on a string, base 10 *)

Inductive scan_state := AtStart | AfterDigit | AfterUnderscore.

(** Reads digits separated by single underscores for as long as it can;
    gives the value, the number of digits and the unread text.  Fails on
    a doubled, leading or trailing underscore and when no digit is
    there. *)
Fixpoint scan_digits (st : scan_state) (acc : Z) (n : nat) (s : string)
  : option (Z * nat * string) :=
  let stop := match st with AfterDigit => Some (acc, n, s) | _ => None end in
  match s with
  | EmptyString => stop
  | String c s' =>
      if isdigit c then scan_digits AfterDigit (10 * acc + digit_value c) (S n) s'
      else if Ascii.eqb c "_" then
        match st with
        | AfterDigit => scan_digits AfterUnderscore acc n s'
        | _ => None
        end
      else stop
  end.

Definition split_sign (s : string) : bool * string :=
  match s with
  | String c s' =>
      if Ascii.eqb c "-" then (true, s')
      else if Ascii.eqb c "+" then (false, s')
      else (false, s)
  | EmptyString => (false, s)
  end.

(** [sys.get_int_max_str_digits()], at its default. *)
Definition int_max_str_digits : nat := 4300.

Definition invalid_literal (s : string) : exception :=
  Exc ValueError
    ("invalid literal for int() with base 10: " +:+ take 200 (repr s)).

Definition exceeds_limit (n : nat) : exception :=
  Exc ValueError
    ("Exceeds the limit (" +:+ pretty int_max_str_digits
     +:+ " digits) for integer string conversion: value has "
     +:+ pretty n
     +:+ " digits; use sys.set_int_max_str_digits() to increase the limit").

Definition int_of_str (s : string) : exception + Z :=
  let '(neg, body) := split_sign (lstrip_with isspace_number s) in
  match scan_digits AtStart 0 0%nat body with
  | None => inl (invalid_literal s)
  | Some (v, n, rest) =>
      if (int_max_str_digits <? n)%nat then inl (exceeds_limit n)
      else
        match lstrip_with isspace_number rest with
        | EmptyString => inr (if neg then - v else v)
        | String _ _ => inl (invalid_literal s)
        end
  end.

(** ** [float(s)] on a string *)

(** Underscores may only stand between two digits; they are removed
    before the number is read. *)
Fixpoint drop_underscores (prev : option ascii) (s : string) : option string :=
  let prev_digit := match prev with Some p => isdigit p | None => false end in
  let prev_underscore :=
    match prev with Some p => Ascii.eqb p "_" | None => false end in
  match s with
  | EmptyString => if prev_underscore then None else Some EmptyString
  | String c s' =>
      if Ascii.eqb c "_" then
        if prev_digit then drop_underscores (Some c) s' else None
      else if prev_underscore && negb (isdigit c) then None
      else
        match drop_underscores (Some c) s' with
        | Some r => Some (String c r)
        | None => None
        end
  end.

(** The longest run of digits at the front: their value, their number
    and the unread text. *)
Fixpoint take_digits (acc : Z) (n : Z) (s : string) : Z * Z * string :=
  match s with
  | String c s' =>
      if isdigit c then take_digits (10 * acc + digit_value c) (n + 1) s'
      else (acc, n, s)
  | EmptyString => (acc, n, s)
  end.

(** A decimal literal read as mantissa and power of ten. *)
Definition parse_decimal (s : string) : option (Z * Z) :=
  let '(i, ni, r1) := take_digits 0 0 s in
  let '(m, nf, r2) :=
    match r1 with
    | String c r => if Ascii.eqb c "." then take_digits i 0 r else (i, 0, r1)
    | EmptyString => (i, 0, r1)
    end in
  if (ni + nf =? 0) then None
  else
    match r2 with
    | EmptyString => Some (m, - nf)
    | String c r =>
        if Ascii.eqb (lower_char c) "e" then
          let '(eneg, r3) := split_sign r in
          match take_digits 0 0 r3 with
          | (e, ne, EmptyString) =>
              if ne =? 0 then None
              else Some (m, (if eneg then - e else e) - nf)
          | _ => None
          end
        else None
    end.

(** The binary64 number nearest to [m * 10 ^ e], ties to even. *)
Definition round_decimal (neg : bool) (m e : Z) : float :=
  SF2Prim
    match m with
    | Zpos _ =>
        if 0 <=? e then binary_round prec emax neg (Z.to_pos (m * 10 ^ e)) 0
        else
          let d := 10 ^ (- e) in
          let k := Z.max 0 (Z.log2 d + 56 - Z.log2 m) in
          let n := m * 2 ^ k in
          let q := n / d in
          let r := n mod d in
          let loc :=
            if r =? 0 then loc_Exact else loc_Inexact (Z.compare (2 * r) d) in
          binary_round_aux prec emax neg q (- k) loc
    | _ => S754_zero neg
    end.

Definition could_not_convert (s : string) : exception :=
  Exc ValueError ("could not convert string to float: " +:+ repr s).

Definition parse_float (s : string) : option float :=
  match drop_underscores None (strip_with isspace_number s) with
  | None => None
  | Some t =>
      let '(neg, body) := split_sign t in
      let word := lower body in
      if String.eqb word "inf" || String.eqb word "infinity"
      then Some (if neg then neg_infinity else infinity)
      else if String.eqb word "nan" then Some nan
      else
        match parse_decimal body with
        | Some (m, e) => Some (round_decimal neg m e)
        | None => None
        end
  end.

Definition float_of_str (s : string) : exception + float :=
  match parse_float s with
  | Some x => inr x
  | None => inl (could_not_convert s)
  end.

End Py.

Import Py.

(** * The process: requests, terminal, environment *)

(** One entry of [messages]. *)
Record Message := { role : string; content : string }.

(** The keyword arguments of [chat.completions.create]. *)
Record Request := {
  req_model : string;
  req_messages : list Message;
  req_max_tokens : Z;
  req_temperature : float
}.

(** A response: [choices[i].message.content] for each choice, [None]
    where the service sent no text. *)
Record Response := { choices : list (option string) }.

(** What a client does with a request, given how many calls were made
    before it. *)
Definition Client := nat -> Request -> exception + Response.

Record World := {
  environ : gmap string string;     (* os.environ *)
  stdin : list string;              (* lines not read yet *)
  stdout : list string;             (* chunks written so far *)
  requests : list Request;          (* calls made so far, oldest first *)
  OpenAI : string -> Client         (* OpenAI(api_key=...) *)
}.

Definition set_stdin (l : list string) (w : World) : World :=
  {| environ := environ w; stdin := l; stdout := stdout w;
     requests := requests w; OpenAI := OpenAI w |}.

Definition emit (chunks : list string) (w : World) : World :=
  {| environ := environ w; stdin := stdin w; stdout := stdout w ++ chunks;
     requests := requests w; OpenAI := OpenAI w |}.

Definition log_request (r : Request) (w : World) : World :=
  {| environ := environ w; stdin := stdin w; stdout := stdout w;
     requests := requests w ++ [r]; OpenAI := OpenAI w |}.

(** ** A state and exception monad *)

Inductive result (A : Type) :=
| Ok (a : A)
| Raise (e : exception)
| OutOfFuel.

Arguments Ok {A} a.
Arguments Raise {A} e.
Arguments OutOfFuel {A}.

Definition M (A : Type) : Type := World -> result A * World.

Definition ret {A} (a : A) : M A := fun w => (Ok a, w).

Definition raise {A} (e : exception) : M A := fun w => (Raise e, w).

Definition bind {A B} (m : M A) (k : A -> M B) : M B :=
  fun w =>
    match m w with
    | (Ok a, w') => k a w'
    | (Raise e, w') => (Raise e, w')
    | (OutOfFuel, w') => (OutOfFuel, w')
    end.

Declare Scope py_scope.
Delimit Scope py_scope with py.
Bind Scope py_scope with M.

Notation "x <- m ;; k" := (bind m (fun x => k))
  (at level 100, m at next level, right associativity) : py_scope.
Notation "m ;; k" := (bind m (fun _ => k))
  (at level 100, right associativity) : py_scope.

Local Open Scope py_scope.

(** [try: body  except C as e: handler e], where [catches] tells the
    instances of [C]. *)
Definition try_except {A} (body : M A) (catches : exception -> bool)
    (handler : exception -> M A) : M A :=
  fun w =>
    match body w with
    | (Raise e, w') => if catches e then handler e w' else (Raise e, w')
    | other => other
    end.

(** Lifts the outcome of a builtin that may raise. *)
Definition lift {A} (r : exception + A) : M A :=
  match r with inl e => raise e | inr a => ret a end.

(** ** Terminal *)

Definition write (s : string) : M unit := fun w => (Ok tt, emit [s] w).

(** [print(s)] *)
Definition print (s : string) : M unit := write (s +:+ NL).

Definition EOF_error : exception := Exc EOFError "EOF when reading a line".

(** [input()] *)
Definition read_line : M string :=
  fun w =>
    match stdin w with
    | [] => (Raise EOF_error, w)
    | line :: rest => (Ok line, set_stdin rest w)
    end.

(** [input(prompt)] *)
Definition input (prompt : string) : M string := write prompt ;; read_line.

(** [str(x)] for a value that is a string or [None]. *)
Definition str (x : option string) : string :=
  match x with Some s => s | None => "None" end.

(** [s * n] *)
Fixpoint times (s : string) (n : nat) : string :=
  match n with O => "" | S n' => s +:+ times s n' end.

(** ** Environment *)

(** [os.getenv(name)] *)
Definition getenv (name : string) : M (option string) :=
  fun w => (Ok (environ w !! name), w).

(** ** Loops

    A [while True:] loop whose body either goes round again with a new
    loop state or leaves with a value.  Both loops of the script read a
    line each time round, so one more round than there are lines always
    suffices. *)

Fixpoint iterate {S R} (fuel : nat) (body : S -> M (S + R)) (s : S) : M R :=
  match fuel with
  | O => fun w => (OutOfFuel, w)
  | Datatypes.S n =>
      r <- body s ;;
      match r with
      | inl s' => iterate n body s'
      | inr v => ret v
      end
  end.

Definition while_true {S R} (body : S -> M (S + R)) (s : S) : M R :=
  fun w => iterate (Datatypes.S (length (stdin w))) body s w.

Abbreviation Continue := inl (only parsing).
Abbreviation Break := inr (only parsing).

(** * class CodexGenerator *)

Module CodexGenerator.

(** The attributes of an instance. *)
Record t := {
  api_key : string;
  client : Client;
  model : string;
  max_tokens : Z;
  temperature : float
}.

Definition missing_key : exception :=
  Exc ValueError
    ("OpenAI API key not found. Please set OPENAI_API_KEY in your .env file."
     +:+ NL +:+ "Get your API key from: https://platform.openai.com/api-keys").

(** [OpenAI(api_key=key)]: builds the client, no call is made. *)
Definition new_client (key : string) : M Client :=
  fun w => (Ok (OpenAI w key), w).

(** [CodexGenerator()] *)
Definition __init__ : M t :=
  key <- getenv "OPENAI_API_KEY" ;;
  if negb (truthy_opt key) then raise missing_key
  else
    let key := default "" key in
    cl <- new_client key ;;
    name <- getenv "MODEL_NAME" ;;
    limit <- getenv "MAX_TOKENS" ;;
    limit <- match limit with
             | Some s => lift (int_of_str s)
             | None => ret 1000
             end ;;
    temp <- getenv "TEMPERATURE" ;;
    temp <- match temp with
            | Some s => lift (float_of_str s)
            | None => ret 0.7%float
            end ;;
    ret {| api_key := key; client := cl; model := default "gpt-4" name;
           max_tokens := limit; temperature := temp |}.

(** [self.client.chat.completions.create(...)]: one call to the remote
    endpoint, recorded whether it answers or raises. *)
Definition create (c : Client) (req : Request) : M Response :=
  fun w =>
    let w' := log_request req w in
    match c (length (requests w)) req with
    | inl e => (Raise e, w')
    | inr r => (Ok r, w')
    end.

(** [l[0]] *)
Definition first {A} (l : list A) : M A :=
  match l !! 0%nat with
  | Some x => ret x
  | None => raise (Exc IndexError "list index out of range")
  end.

Definition system_base : string :=
  "You are an expert programmer assistant. Generate clean, efficient, and well-commented code based on user requests.".

(** The system message of [generate_code]. *)
Definition system_message (language : option string) : string :=
  if truthy_opt language
  then system_base +:+ " Generate code in " +:+ default "" language +:+ "."
  else system_base.

Definition generate_request (self : t) (prompt : string)
    (language : option string) : Request :=
  {| req_model := model self;
     req_messages :=
       [ {| role := "system"; content := system_message language |};
         {| role := "user"; content := prompt |} ];
     req_max_tokens := max_tokens self;
     req_temperature := temperature self |}.

Definition generate_code (self : t) (prompt : string)
    (language : option string) : M (option string) :=
  try_except
    (response <- create (client self) (generate_request self prompt language) ;;
     choice <- first (choices response) ;;
     ret choice)
    is_Exception
    (fun e => ret (Some ("Error generating code: " +:+ exc_str e))).

(** The prompt built by [complete_code]. *)
Definition complete_prompt (partial_code context : string) : string :=
  let prompt := "Complete the following code:" +:+ NL +:+ NL +:+ partial_code in
  if truthy context
  then prompt +:+ (NL +:+ NL +:+ "Context: " +:+ context)
  else prompt.

(** [context] defaults to the empty string. *)
Definition complete_code (self : t) (partial_code context : string)
  : M (option string) :=
  generate_code self (complete_prompt partial_code context) None.

Definition explain_request (self : t) (code : string) : Request :=
  {| req_model := model self;
     req_messages :=
       [ {| role := "system";
            content := "You are a helpful code explainer. Provide clear, concise explanations of code." |};
         {| role := "user";
            content := "Explain this code:" +:+ NL +:+ NL +:+ code |} ];
     req_max_tokens := max_tokens self;
     req_temperature := 0.3%float |}.

Definition explain_code (self : t) (code : string) : M (option string) :=
  try_except
    (response <- create (client self) (explain_request self code) ;;
     choice <- first (choices response) ;;
     ret choice)
    is_Exception
    (fun e => ret (Some ("Error explaining code: " +:+ exc_str e))).

(** The default of [goal]. *)
Definition default_goal : string := "improve readability and efficiency".

Definition refactor_prompt (code goal : string) : string :=
  "Refactor the following code to " +:+ goal +:+ ":" +:+ NL +:+ NL +:+ code.

Definition refactor_code (self : t) (code goal : string) : M (option string) :=
  generate_code self (refactor_prompt code goal) None.

(** The prompt built by [debug_code]. *)
Definition debug_prompt (code error_message : string) : string :=
  let prompt := "Debug and fix the following code:" +:+ NL +:+ NL +:+ code in
  if truthy error_message
  then prompt +:+ (NL +:+ NL +:+ "Error message: " +:+ error_message)
  else prompt.

(** [error_message] defaults to the empty string. *)
Definition debug_code (self : t) (code error_message : string)
  : M (option string) :=
  generate_code self (debug_prompt code error_message) None.

End CodexGenerator.

(** * The front end *)

Definition rule : string := times "=" 60.

(** One round of the loop that reads a block of code: the lines read
    so far are the loop state. *)
Definition read_code_round (lines : list string) : M (list string + list string) :=
  line <- read_line ;;
  if String.eqb (strip line) "END" then ret (Break lines)
  else ret (Continue (lines ++ [line])).

(** The loop that reads a block of code up to a line that is [END]
    once stripped, and the joining of the lines read. *)
Definition read_code : M string :=
  lines <- while_true read_code_round [] ;;
  ret (join NL lines).

(** The three lines printed above a result. *)
Definition heading (title : string) : M unit :=
  print (NL +:+ rule) ;; print title ;; print rule.

Definition quit_tokens : list string := ["6"; "quit"; "exit"].
Definition generate_tokens : list string := ["1"; "generate"].
Definition complete_tokens : list string := ["2"; "complete"].
Definition explain_tokens : list string := ["3"; "explain"].
Definition refactor_tokens : list string := ["4"; "refactor"].
Definition debug_tokens : list string := ["5"; "debug"].

(** The branches of the command loop. *)

Definition do_generate (generator : CodexGenerator.t) : M unit :=
  print (NL +:+ "Describe the code you want to generate:") ;;
  prompt <- input "> " ;;
  language <- input "Programming language (optional, press Enter to skip): " ;;
  let language := strip language in
  heading "Generated Code:" ;;
  result <- CodexGenerator.generate_code generator prompt
              (if truthy language then Some language else None) ;;
  print (str result).

Definition do_complete (generator : CodexGenerator.t) : M unit :=
  print (NL +:+ "Enter partial code (type 'END' on a new line when done):") ;;
  partial_code <- read_code ;;
  context <- input "Additional context (optional): " ;;
  let context := strip context in
  heading "Completed Code:" ;;
  result <- CodexGenerator.complete_code generator partial_code context ;;
  print (str result).

Definition do_explain (generator : CodexGenerator.t) : M unit :=
  print (NL +:+ "Enter code to explain (type 'END' on a new line when done):") ;;
  code <- read_code ;;
  heading "Explanation:" ;;
  result <- CodexGenerator.explain_code generator code ;;
  print (str result).

Definition do_refactor (generator : CodexGenerator.t) : M unit :=
  print (NL +:+ "Enter code to refactor (type 'END' on a new line when done):") ;;
  code <- read_code ;;
  goal <- input "Refactoring goal (optional): " ;;
  let goal := strip goal in
  heading "Refactored Code:" ;;
  result <- CodexGenerator.refactor_code generator code
              (if truthy goal then goal else CodexGenerator.default_goal) ;;
  print (str result).

Definition do_debug (generator : CodexGenerator.t) : M unit :=
  print (NL +:+ "Enter code to debug (type 'END' on a new line when done):") ;;
  code <- read_code ;;
  error <- input "Error message (optional): " ;;
  let error := strip error in
  heading "Debug Result:" ;;
  result <- CodexGenerator.debug_code generator code error ;;
  print (str result).

Definition invalid_command : string :=
  "Invalid command. Please enter a number between 1-6 or a valid command name.".

(** What the loop does with a command once it is stripped and put in
    lower case. *)
Definition dispatch (generator : CodexGenerator.t) (command : string)
  : M (unit + unit) :=
  if str_in command quit_tokens then
    print (NL +:+ "Thank you for using Codex Code Generator!") ;;
    ret (Break tt)
  else if str_in command generate_tokens then
    do_generate generator ;; ret (Continue tt)
  else if str_in command complete_tokens then
    do_complete generator ;; ret (Continue tt)
  else if str_in command explain_tokens then
    do_explain generator ;; ret (Continue tt)
  else if str_in command refactor_tokens then
    do_refactor generator ;; ret (Continue tt)
  else if str_in command debug_tokens then
    do_debug generator ;; ret (Continue tt)
  else
    print invalid_command ;; ret (Continue tt).

(** One round of the command loop. *)
Definition command_round (generator : CodexGenerator.t) (_ : unit)
  : M (unit + unit) :=
  print (NL +:+ "What would you like to do?") ;;
  command <- input "Enter command (1-6): " ;;
  let command := lower (strip command) in
  dispatch generator command.

Definition command_loop (generator : CodexGenerator.t) : M unit :=
  while_true (command_round generator) tt.

Definition menu : M unit :=
  print rule ;;
  print "OpenAI Codex Code Generator - Interactive Mode" ;;
  print rule ;;
  print (NL +:+ "Available commands:") ;;
  print "  1. generate - Generate code from description" ;;
  print "  2. complete - Complete partial code" ;;
  print "  3. explain - Explain code" ;;
  print "  4. refactor - Refactor code" ;;
  print "  5. debug - Debug code" ;;
  print "  6. quit - Exit the program" ;;
  print rule.

(** The line printed for an error of the constructor. *)
Definition report (e : exception) : M unit :=
  print (NL +:+ "Error: " +:+ exc_str e).

Definition interactive_mode : M unit :=
  menu ;;
  generator <- try_except
                 (g <- CodexGenerator.__init__ ;; ret (Some g))
                 is_ValueError
                 (fun e => report e ;; ret None) ;;
  match generator with
  | None => ret tt
  | Some generator => command_loop generator
  end.

Definition direct_mode (prompt : string) : M unit :=
  try_except
    (generator <- CodexGenerator.__init__ ;;
     print (NL +:+ "Generating code..." +:+ NL) ;;
     result <- CodexGenerator.generate_code generator prompt None ;;
     print (str result))
    is_ValueError
    report.

(** [main()], with [argv] for [sys.argv]. *)
Definition main (argv : list string) : M unit :=
  if (1 <? length argv)%nat then direct_mode (join " " (tail argv))
  else interactive_mode.

(** The exit status of the interpreter: 0 when [main()] returns, 1 when
    an exception is left uncaught. *)
Definition exit_status (r : result unit) : option Z :=
  match r with
  | Ok _ => Some 0
  | Raise _ => Some 1
  | OutOfFuel => None
  end.

(** Running the script. *)
Definition run (argv : list string) (w : World) : option Z * World :=
  let '(r, w') := main argv w in (exit_status r, w').

(** * Reading requests and answers *)

(** The contents of the messages with a given role, in order. *)
Definition instruction (who : string) (r : Request) : list string :=
  map content (List.filter (fun m => String.eqb (role m) who) (req_messages r)).

(** What a completion method returns for an outcome of the remote call;
    [label] is the text put before the description of a failure. *)
Definition answer (label : string) (outcome : exception + Response)
  : option string :=
  match outcome with
  | inl e => Some (label +:+ exc_str e)
  | inr r =>
      match choices r with
      | [] => Some (label +:+ "list index out of range")
      | c :: _ => c
      end
  end.

(** The requests that running [m] in [w] adds to the log. *)
Definition sent {A} (m : M A) (w : World) : list Request :=
  drop (length (requests w)) (requests (snd (m w))).

(** The lines of the terminal up to the first that is [END] once
    stripped, and the lines after it. *)
Fixpoint split_at_END (l : list string) : option (list string * list string) :=
  match l with
  | [] => None
  | x :: l' =>
      if String.eqb (strip x) "END" then Some ([], l')
      else
        match split_at_END l' with
        | Some (block, rest) => Some (x :: block, rest)
        | None => None
        end
  end.

(** What a round of the command loop writes before it reads. *)
Definition question_text : string := (NL +:+ "What would you like to do?") +:+ NL.
Definition command_prompt : string := "Enter command (1-6): ".

(** The world after the question, the prompt and the reading of one
    line. *)
Definition asked (rest : list string) (w : World) : World :=
  set_stdin rest (emit [question_text; command_prompt] w).


(** A loop body that reads at least one line whenever it goes round
    again. *)
Definition shrinks {S R} (body : S -> M (S + R)) : Prop :=
  forall s w s' w',
    body s w = (Ok (Continue s'), w') ->
    (length (stdin w') < length (stdin w))%nat.

(** An action that only reads lines from the front of the input, only
    adds to the output, and stops early only at the end of the input,
    with [EOFError]. *)
Definition tame {A} (m : M A) : Prop :=
  forall w r w',
    m w = (r, w') ->
    stdin w' `suffix_of` stdin w
    /\ stdout w `prefix_of` stdout w'
    /\ match r with
       | Ok _ => True
       | Raise e => e = EOF_error /\ stdin w' = []
       | OutOfFuel => False
       end.

(** The chunks that [menu] writes. *)
Definition menu_text : list string :=
  [ rule +:+ NL;
    "OpenAI Codex Code Generator - Interactive Mode" +:+ NL;
    rule +:+ NL;
    (NL +:+ "Available commands:") +:+ NL;
    "  1. generate - Generate code from description" +:+ NL;
    "  2. complete - Complete partial code" +:+ NL;
    "  3. explain - Explain code" +:+ NL;
    "  4. refactor - Refactor code" +:+ NL;
    "  5. debug - Debug code" +:+ NL;
    "  6. quit - Exit the program" +:+ NL;
    rule +:+ NL ].

(** The chunk that [report] writes. *)
Definition report_text (e : exception) : string :=
  (NL +:+ "Error: " +:+ exc_str e) +:+ NL.

(** An environment with a key and two numbers that are not numbers. *)
Definition malformed_env : gmap string string :=
  <["OPENAI_API_KEY" := "sk-test"]>
    (<["MAX_TOKENS" := "abc"]> (<["TEMPERATURE" := "hot"]> ∅)).

(** The same with only the temperature malformed. *)
Definition malformed_temperature_env : gmap string string :=
  <["OPENAI_API_KEY" := "sk-test"]>
    (<["MAX_TOKENS" := "2000"]> (<["TEMPERATURE" := "hot"]> ∅)).

(** What the entry point selected by [argv] writes when the constructor
    raises [e]. *)
Definition failure_output (argv : list string) (e : exception) : list string :=
  (if (1 <? length argv)%nat then [] else menu_text) ++ [report_text e].

(** A generator and a world to run examples in: the service times out
    on every call. *)
Definition timeout_client : Client :=
  fun _ _ => inl (Exc (OtherException "APITimeoutError") "timeout").

Definition sample_generator : CodexGenerator.t :=
  {| CodexGenerator.api_key := "sk-test";
     CodexGenerator.client := timeout_client;
     CodexGenerator.model := "gpt-4";
     CodexGenerator.max_tokens := 1000;
     CodexGenerator.temperature := 0.7%float |}.

Definition sample_world (env : gmap string string) (lines : list string)
  : World :=
  {| environ := env; stdin := lines; stdout := []; requests := [];
     OpenAI := fun _ => timeout_client |}.

(** * Relations between the world before and after an action *)

(** An action whose every run relates the world it starts in to the
    world it ends in by [R]. *)
Definition preserves {A} (R : World -> World -> Prop) (m : M A) : Prop :=
  forall w r w', m w = (r, w') -> R w w'.

(** The environment and the service are the same, and the log has only
    grown, by requests that satisfy [Q]. *)
Definition extends (Q : Request -> Prop) (w w' : World) : Prop :=
  environ w' = environ w
  /\ OpenAI w' = OpenAI w
  /\ exists new, requests w' = requests w ++ new /\ Forall Q new.

(** A request made from the attributes of [g]: its model, its limit
    and a system message followed by a user message. *)
Definition from_generator (g : CodexGenerator.t) (r : Request) : Prop :=
  req_model r = CodexGenerator.model g
  /\ req_max_tokens r = CodexGenerator.max_tokens g
  /\ map role (req_messages r) = ["system"; "user"].

(** A request made from the configuration in [env]. *)
Definition configured (env : gmap string string) (r : Request) : Prop :=
  req_model r = default "gpt-4" (env !! "MODEL_NAME")
  /\ match env !! "MAX_TOKENS" with
     | Some s => int_of_str s = inr (req_max_tokens r)
     | None => req_max_tokens r = 1000
     end
  /\ map role (req_messages r) = ["system"; "user"].



(** A string of whitespace only. *)
Fixpoint all_space (s : string) : bool :=
  match s with
  | EmptyString => true
  | String c s' => isspace c && all_space s'
  end.

(** What the loop writes when it is left. *)
Definition goodbye_text : string :=
  (NL +:+ "Thank you for using Codex Code Generator!") +:+ NL.

(** What direct mode writes before the call. *)
Definition generating_text : string :=
  (NL +:+ "Generating code..." +:+ NL) +:+ NL.

(** A service that answers every call with two choices. *)
Definition answering_client (text : string) : Client :=
  fun _ _ => inr {| choices := [Some text; Some "another choice"] |}.

Definition answering_world (env : gmap string string) (lines : list string)
  : World :=
  {| environ := env; stdin := lines; stdout := []; requests := [];
     OpenAI := fun _ => answering_client "def f(): pass" |}.

(** An environment with a key, an empty model name, a negative limit
    and a temperature that is not a number. *)
Definition odd_env : gmap string string :=
  <["OPENAI_API_KEY" := "sk-test"]>
    (<["MODEL_NAME" := ""]>
       (<["MAX_TOKENS" := "-5"]> (<["TEMPERATURE" := "nan"]> ∅))).

Definition key_env : gmap string string := <["OPENAI_API_KEY" := "sk-test"]> ∅.

Import CodexGenerator.

(** * The builtins on a few inputs *)

Example strip_command : strip "  GENERATE  " = "GENERATE".
Proof. reflexivity. Qed.

Example lower_command : lower "GeNeRaTe" = "generate".
Proof. reflexivity. Qed.

Example strip_separators : strip (String (chr 28) "END" +:+ NL) = "END".
Proof. reflexivity. Qed.

Example join_lines : join NL ["a"; ""; "b"] = "a" +:+ NL +:+ NL +:+ "b".
Proof. reflexivity. Qed.

Example repr_quote : repr "it's" = String double_quote "it's" +:+ String double_quote "".
Proof. reflexivity. Qed.

Example int_plain : int_of_str "2000" = inr 2000.
Proof. reflexivity. Qed.

Example int_spaced : int_of_str " -1_000 " = inr (-1000).
Proof. reflexivity. Qed.

Example int_doubled_underscore : int_of_str "1__0" = inl (invalid_literal "1__0").
Proof. reflexivity. Qed.

Example int_fraction : int_of_str "0.5" = inl (invalid_literal "0.5").
Proof. reflexivity. Qed.

Example float_default : float_of_str "0.7" = inr 0.7%float.
Proof. vm_compute. reflexivity. Qed.

Example float_three_tenths : float_of_str " 0.30000000000000001 " = inr 0.3%float.
Proof. vm_compute. reflexivity. Qed.

Example float_exponent : float_of_str "1_5e-1" = inr 1.5%float.
Proof. vm_compute. reflexivity. Qed.

Example float_overflow : float_of_str "1e400" = inr infinity.
Proof. vm_compute. reflexivity. Qed.

Example float_nan : float_of_str "NaN" = inr nan.
Proof. vm_compute. reflexivity. Qed.

Example float_word : float_of_str "hot" = inl (could_not_convert "hot").
Proof. vm_compute. reflexivity. Qed.

(** A whole session: one request, one unknown command, then quit. *)
Example session :
  let w := sample_world (<["OPENAI_API_KEY" := "sk-test"]> ∅)
             ["1"; "reverse a list"; " Python "; "bogus"; "EXIT"; "unread"] in
  let w' := snd (run ["main.py"] w) in
  fst (run ["main.py"] w) = Some 0
  /\ stdin w' = ["unread"]
  /\ map (instruction "system") (requests w')
     = [[system_base +:+ " Generate code in Python."]]
  /\ last (stdout w')
     = Some ((NL +:+ "Thank you for using Codex Code Generator!") +:+ NL).
Proof. vm_compute. repeat split. Qed.

(** A session whose input ends inside a block of code. *)
Example session_cut_short :
  let w := sample_world (<["OPENAI_API_KEY" := "sk-test"]> ∅)
             ["explain"; "x = 1"] in
  fst (run ["main.py"] w) = Some 1
  /\ requests (snd (run ["main.py"] w)) = [].
Proof. vm_compute. repeat split. Qed.

(** * The completion methods *)

Lemma generate_code_run self prompt language w :
  generate_code self prompt language w =
    (Ok (answer "Error generating code: "
           (client self (length (requests w))
              (generate_request self prompt language))),
     log_request (generate_request self prompt language) w).
Proof.
  unfold generate_code, try_except, bind, create.
  destruct (client self _ _) as [e | [[| c cs]]]; reflexivity.
Qed.

Lemma explain_code_run self code w :
  explain_code self code w =
    (Ok (answer "Error explaining code: "
           (client self (length (requests w)) (explain_request self code))),
     log_request (explain_request self code) w).
Proof.
  unfold explain_code, try_except, bind, create.
  destruct (client self _ _) as [e | [[| c cs]]]; reflexivity.
Qed.

Lemma truthy_nonempty s : s <> "" -> truthy s = true.
Proof. destruct s; [intros H; now contradiction H | reflexivity]. Qed.

Lemma append_nil_l (t : string) : "" +:+ t = t.
Proof. reflexivity. Qed.

Lemma append_cons c (s t : string) : String c s +:+ t = String c (s +:+ t).
Proof. reflexivity. Qed.

Lemma append_nil_r (s : string) : s +:+ "" = s.
Proof. induction s as [| c s IH]; [reflexivity |]. now rewrite append_cons, IH. Qed.

Lemma append_assoc (a b c : string) : (a +:+ b) +:+ c = a +:+ (b +:+ c).
Proof.
  induction a as [| x a IH]; [reflexivity |]. now rewrite !append_cons, IH.
Qed.

Lemma append_same_l (s t : string) : s +:+ t = s -> t = "".
Proof.
  induction s as [| c s IH]; [now rewrite append_nil_l |].
  rewrite append_cons. intros H. injection H as H. auto.
Qed.

(** ** Failures of the remote call *)

(** C1.  When the chat-completion call raises an exception, the method
    returns normally, and what it returns is the string
    "Error generating code: " (for [explain_code], "Error explaining
    code: ") followed by the text of the exception; for the text
    "timeout" that is exactly "Error generating code: timeout".  The
    methods built on [generate_code] behave like it. *)
Theorem remote_failure_becomes_text
    (self : CodexGenerator.t) (w : World) (e : exception)
    (prompt : string) (language : option string) (code aux : string) :
  (client self (length (requests w)) (generate_request self prompt language)
     = inl e ->
   fst (generate_code self prompt language w)
     = Ok (Some ("Error generating code: " +:+ exc_str e))
   /\ (exc_str e = "timeout" ->
       fst (generate_code self prompt language w)
         = Ok (Some "Error generating code: timeout")))
  /\ (client self (length (requests w)) (explain_request self code) = inl e ->
      fst (explain_code self code w)
        = Ok (Some ("Error explaining code: " +:+ exc_str e)))
  /\ (forall m r,
        In (m, r)
          [(complete_code self code aux,
            generate_request self (complete_prompt code aux) None);
           (refactor_code self code aux,
            generate_request self (refactor_prompt code aux) None);
           (debug_code self code aux,
            generate_request self (debug_prompt code aux) None)] ->
        client self (length (requests w)) r = inl e ->
        fst (m w) = Ok (Some ("Error generating code: " +:+ exc_str e))).
Proof.
  split; [| split].
  - intros H. rewrite generate_code_run, H. simpl.
    split; [reflexivity | now intros ->].
  - intros H. now rewrite explain_code_run, H.
  - intros m r Hm H. simpl in Hm.
    destruct Hm as [[= <- <-] | [[= <- <-] | [[= <- <-] | []]]];
      unfold complete_code, refactor_code, debug_code;
      now rewrite generate_code_run, H.
Qed.

Lemma remote_failure_becomes_text_witness :
  fst (generate_code sample_generator "reverse a list" (Some "Python")
         (sample_world ∅ []))
    = Ok (Some "Error generating code: timeout")
  /\ fst (explain_code sample_generator "print(x)" (sample_world ∅ []))
    = Ok (Some "Error explaining code: timeout")
  /\ stdout (snd (direct_mode "reverse a list"
                    (sample_world (<["OPENAI_API_KEY" := "sk-test"]> ∅) [])))
    = [(NL +:+ "Generating code..." +:+ NL) +:+ NL;
       "Error generating code: timeout" +:+ NL].
Proof.
  destruct (remote_failure_becomes_text sample_generator (sample_world ∅ [])
              (Exc (OtherException "APITimeoutError") "timeout")
              "reverse a list" (Some "Python") "print(x)" "")
    as (Hg & He & _).
  split; [apply (Hg eq_refl); reflexivity |].
  split; [exact (He eq_refl) | vm_compute; reflexivity].
Defined.

(** ** The requests that are sent *)

Lemma generate_code_sends self prompt language w :
  requests (snd (generate_code self prompt language w))
    = requests w ++ [generate_request self prompt language].
Proof. now rewrite generate_code_run. Qed.

Lemma explain_code_sends self code w :
  requests (snd (explain_code self code w))
    = requests w ++ [explain_request self code].
Proof. now rewrite explain_code_run. Qed.

Lemma system_message_decorated (L : string) :
  L <> "" ->
  system_message (Some L) = system_base +:+ " Generate code in " +:+ L +:+ ".".
Proof. intros H. unfold system_message. simpl. now rewrite truthy_nonempty. Qed.

Lemma complete_prompt_context (c x : string) :
  x <> "" ->
  complete_prompt c x
    = "Complete the following code:" +:+ NL +:+ NL +:+ c
      +:+ NL +:+ NL +:+ "Context: " +:+ x.
Proof.
  intros H. unfold complete_prompt. rewrite truthy_nonempty by assumption.
  now rewrite !append_assoc.
Qed.

Lemma debug_prompt_error (c e : string) :
  e <> "" ->
  debug_prompt c e
    = "Debug and fix the following code:" +:+ NL +:+ NL +:+ c
      +:+ NL +:+ NL +:+ "Error message: " +:+ e.
Proof.
  intros H. unfold debug_prompt. rewrite truthy_nonempty by assumption.
  now rewrite !append_assoc.
Qed.

(** C2, as the code has it.  [generate_code] sends the prompt verbatim
    as the user message.  For a language that is a non-empty string the
    system message is the fixed base text followed by
    " Generate code in L."; for no language, and for the empty string,
    it is the base text alone. *)
Theorem generate_instructions
    (self : CodexGenerator.t) (p : string) (language : option string)
    (w : World) :
  let r := generate_request self p language in
  requests (snd (generate_code self p language w)) = requests w ++ [r]
  /\ instruction "user" r = [p]
  /\ (forall L, language = Some L -> L <> "" ->
      instruction "system" r
        = [system_base +:+ " Generate code in " +:+ L +:+ "."])
  /\ (language = None \/ language = Some "" ->
      instruction "system" r = [system_base]).
Proof.
  cbv zeta. split; [apply generate_code_sends |].
  split; [reflexivity |]. split.
  - intros L -> HL. unfold instruction. simpl.
    now rewrite system_message_decorated.
  - intros [-> | ->]; reflexivity.
Qed.

Lemma generate_instructions_witness :
  instruction "system"
    (generate_request sample_generator "reverse a list" (Some "Python"))
    = [system_base +:+ " Generate code in Python."]
  /\ instruction "system"
       (generate_request sample_generator "reverse a list" None)
     = [system_base].
Proof.
  pose proof (generate_instructions sample_generator "reverse a list"
                (Some "Python") (sample_world ∅ [])) as (_ & _ & HL & _).
  pose proof (generate_instructions sample_generator "reverse a list"
                None (sample_world ∅ [])) as (_ & _ & _ & HN).
  split.
  - apply (HL "Python"); [reflexivity | discriminate].
  - apply HN. left. reflexivity.
Defined.

(** The empty string is a language that is not [None], and nothing is
    added to the system message for it. *)
Lemma generate_empty_language :
  let r := generate_request sample_generator "reverse a list" (Some "") in
  requests (snd (generate_code sample_generator "reverse a list" (Some "")
                   (sample_world ∅ []))) = [r]
  /\ instruction "system" r = [system_base]
  /\ instruction "system" r
     <> [system_base +:+ " Generate code in " +:+ "" +:+ "."].
Proof.
  cbv zeta. split; [now rewrite generate_code_sends |].
  split; [reflexivity |].
  intros H. injection H as H. symmetry in H.
  apply append_same_l in H. discriminate H.
Qed.

(** C3.  [debug_code] sends as user message
    "Debug and fix the following code:", a blank line and the code.
    For an empty error message nothing follows; for a non-empty one a
    blank line and "Error message: " with the message follow.  So the
    suffix is there exactly when the message is not empty. *)
Theorem debug_instruction
    (self : CodexGenerator.t) (c e : string) (w : World) :
  let r := generate_request self (debug_prompt c e) None in
  let plain := "Debug and fix the following code:" +:+ NL +:+ NL +:+ c in
  requests (snd (debug_code self c e w)) = requests w ++ [r]
  /\ (e = "" -> instruction "user" r = [plain])
  /\ (e <> "" ->
      instruction "user" r
        = [plain +:+ NL +:+ NL +:+ "Error message: " +:+ e])
  /\ (instruction "user" r = [plain] <-> e = "").
Proof.
  cbv zeta. split; [apply generate_code_sends |].
  assert (Hempty : debug_prompt c "" =
                   "Debug and fix the following code:" +:+ NL +:+ NL +:+ c)
    by reflexivity.
  split; [intros ->; unfold instruction; simpl; now rewrite Hempty |].
  split.
  - intros He. unfold instruction. simpl.
    now rewrite debug_prompt_error, !append_assoc.
  - unfold instruction. simpl. split.
    + intros H. destruct e as [| a e]; [reflexivity | exfalso].
      injection H as H. unfold debug_prompt in H. simpl in H.
      apply append_same_l in H. discriminate H.
    + intros ->. now rewrite Hempty.
Qed.

Lemma debug_instruction_witness :
  instruction "user"
    (generate_request sample_generator (debug_prompt "print(x)" "") None)
    = ["Debug and fix the following code:" +:+ NL +:+ NL +:+ "print(x)"]
  /\ instruction "user"
       (generate_request sample_generator
          (debug_prompt "print(x)" "NameError: name 'x' is not defined") None)
     = [("Debug and fix the following code:" +:+ NL +:+ NL +:+ "print(x)")
        +:+ NL +:+ NL
        +:+ "Error message: " +:+ "NameError: name 'x' is not defined"].
Proof.
  split.
  - apply (debug_instruction sample_generator "print(x)" ""
             (sample_world ∅ [])). reflexivity.
  - apply (debug_instruction sample_generator "print(x)"
             "NameError: name 'x' is not defined" (sample_world ∅ [])).
    discriminate.
Defined.

(** C4.  For a non-empty context [complete_code] sends as user message
    "Complete the following code:", a blank line, the partial code, a
    blank line and "Context: " with the context; for the partial code
    "def add(a, b):" followed by a line of four spaces and the context
    "should return sum" that is the documented text.  For an empty
    context the message stops after the partial code. *)
Theorem complete_instruction
    (self : CodexGenerator.t) (c x : string) (w : World) :
  let r := generate_request self (complete_prompt c x) None in
  let plain := "Complete the following code:" +:+ NL +:+ NL +:+ c in
  requests (snd (complete_code self c x w)) = requests w ++ [r]
  /\ (x <> "" ->
      instruction "user" r = [plain +:+ NL +:+ NL +:+ "Context: " +:+ x])
  /\ (c = "def add(a, b):" +:+ NL +:+ "    " -> x = "should return sum" ->
      instruction "user" r
        = ["Complete the following code:" +:+ NL +:+ NL
           +:+ "def add(a, b):" +:+ NL +:+ "    " +:+ NL +:+ NL
           +:+ "Context: should return sum"])
  /\ (x = "" -> instruction "user" r = [plain]).
Proof.
  cbv zeta. split; [apply generate_code_sends |].
  split; [| split].
  - intros Hx. unfold instruction. simpl.
    now rewrite complete_prompt_context, !append_assoc.
  - intros -> ->. reflexivity.
  - intros ->. reflexivity.
Qed.

Lemma complete_instruction_witness :
  instruction "user"
    (generate_request sample_generator
       (complete_prompt ("def add(a, b):" +:+ NL +:+ "    ")
          "should return sum") None)
    = ["Complete the following code:" +:+ NL +:+ NL
       +:+ "def add(a, b):" +:+ NL +:+ "    " +:+ NL +:+ NL
       +:+ "Context: should return sum"]
  /\ instruction "user"
       (generate_request sample_generator (complete_prompt "x = " "") None)
     = ["Complete the following code:" +:+ NL +:+ NL +:+ "x = "].
Proof.
  split.
  - apply (complete_instruction sample_generator
             ("def add(a, b):" +:+ NL +:+ "    ") "should return sum"
             (sample_world ∅ [])); reflexivity.
  - apply (complete_instruction sample_generator "x = " ""
             (sample_world ∅ [])). reflexivity.
Defined.

Lemma sent_generate_code self prompt language w :
  sent (generate_code self prompt language) w
    = [generate_request self prompt language].
Proof.
  unfold sent. rewrite generate_code_sends.
  now rewrite drop_app_length.
Qed.

Lemma sent_explain_code self code w :
  sent (explain_code self code) w = [explain_request self code].
Proof.
  unfold sent. rewrite explain_code_sends.
  now rewrite drop_app_length.
Qed.

(** C9.  [explain_code] always sends the temperature 0.3, whatever the
    generator was configured with; [generate_code], [complete_code],
    [refactor_code] and [debug_code] send the configured temperature.
    So the request of [explain_code] and the request of any other
    method differ in temperature whenever the configured temperature is
    not 0.3. *)
Theorem explain_temperature_is_fixed
    (self : CodexGenerator.t) (w : World)
    (code prompt context goal error : string) (language : option string) :
  (exists r, sent (explain_code self code) w = [r]
             /\ req_temperature r = 0.3%float)
  /\ (forall m,
        In m [generate_code self prompt language;
              complete_code self code context;
              refactor_code self code goal;
              debug_code self code error] ->
        exists r, sent m w = [r]
                  /\ req_temperature r = temperature self
                  /\ (temperature self <> 0.3%float ->
                      req_temperature r
                        <> req_temperature (explain_request self code))).
Proof.
  split.
  - exists (explain_request self code).
    split; [apply sent_explain_code | reflexivity].
  - intros m Hm. simpl in Hm.
    destruct Hm as [<- | [<- | [<- | [<- | []]]]];
      (eexists; split; [apply sent_generate_code | split; [reflexivity |]];
       intros H; exact H).
Qed.

Lemma float_neq (x y : float) : Prim2SF x <> Prim2SF y -> x <> y.
Proof. intros H E. apply H. now rewrite E. Qed.

Lemma explain_temperature_is_fixed_witness :
  exists r, sent (generate_code sample_generator "reverse a list" None)
              (sample_world ∅ []) = [r]
            /\ req_temperature r = 0.7%float
            /\ req_temperature r
               <> req_temperature (explain_request sample_generator "print(x)").
Proof.
  destruct (explain_temperature_is_fixed sample_generator (sample_world ∅ [])
              "print(x)" "reverse a list" "" "" "" None) as [_ H].
  destruct (H (generate_code sample_generator "reverse a list" None))
    as (r & Hr & Ht & Hd); [left; reflexivity |].
  exists r. split; [exact Hr |]. split; [exact Ht |].
  apply Hd. apply float_neq. vm_compute. discriminate.
Defined.

(** * Configuration *)

Lemma emit_emit a b w : emit b (emit a w) = emit (a ++ b) w.
Proof. unfold emit. simpl. now rewrite app_assoc. Qed.

Lemma menu_run w : menu w = (Ok tt, emit menu_text w).
Proof.
  unfold menu, bind, print, write. simpl. now rewrite !emit_emit.
Qed.

Lemma report_run e w : report e w = (Ok tt, emit [report_text e] w).
Proof. reflexivity. Qed.

Lemma int_of_str_error s e : int_of_str s = inl e -> exc_type e = ValueError.
Proof.
  unfold int_of_str. destruct (split_sign _) as [neg body].
  destruct (scan_digits _ _ _ _) as [[[v n] rest] |];
    [| now intros [= <-]].
  destruct (_ <? _)%nat; [now intros [= <-] |].
  destruct (lstrip_with _ _); [discriminate | now intros [= <-]].
Qed.

Lemma float_of_str_error s e :
  float_of_str s = inl e -> exc_type e = ValueError.
Proof.
  unfold float_of_str. destruct (parse_float s); [discriminate |].
  now intros [= <-].
Qed.

Ltac unfold_init :=
  unfold __init__, bind, getenv, new_client, lift, raise, ret; simpl.

(** The constructor reads the environment and nothing else. *)
Lemma init_frame w chunks :
  __init__ (emit chunks w) = (fst (__init__ w), emit chunks w).
Proof.
  unfold_init.
  destruct (truthy_opt (environ w !! "OPENAI_API_KEY")); simpl; [| reflexivity].
  destruct (environ w !! "MAX_TOKENS") as [s |]; simpl.
  - destruct (int_of_str s); simpl; [reflexivity |].
    destruct (environ w !! "TEMPERATURE") as [x |]; simpl; [| reflexivity].
    destruct (float_of_str x); reflexivity.
  - destruct (environ w !! "TEMPERATURE") as [x |]; simpl; [| reflexivity].
    destruct (float_of_str x); reflexivity.
Qed.

Lemma init_keeps_world w : snd (__init__ w) = w.
Proof.
  unfold_init.
  destruct (truthy_opt (environ w !! "OPENAI_API_KEY")); simpl; [| reflexivity].
  destruct (environ w !! "MAX_TOKENS") as [s |]; simpl.
  - destruct (int_of_str s); simpl; [reflexivity |].
    destruct (environ w !! "TEMPERATURE") as [x |]; simpl; [| reflexivity].
    destruct (float_of_str x); reflexivity.
  - destruct (environ w !! "TEMPERATURE") as [x |]; simpl; [| reflexivity].
    destruct (float_of_str x); reflexivity.
Qed.

Lemma init_run w : __init__ w = (fst (__init__ w), w).
Proof.
  rewrite <- (init_keeps_world w) at 3. now destruct (__init__ w).
Qed.

Lemma init_missing_key w :
  truthy_opt (environ w !! "OPENAI_API_KEY") = false ->
  __init__ w = (Raise missing_key, w).
Proof. intros H. unfold_init. now rewrite H. Qed.

Lemma init_bad_max_tokens w s e :
  truthy_opt (environ w !! "OPENAI_API_KEY") = true ->
  environ w !! "MAX_TOKENS" = Some s ->
  int_of_str s = inl e ->
  __init__ w = (Raise e, w).
Proof.
  intros Hk Hs He. unfold_init. rewrite Hk. simpl. now rewrite Hs, He.
Qed.

Lemma init_bad_temperature w x e :
  truthy_opt (environ w !! "OPENAI_API_KEY") = true ->
  (forall s, environ w !! "MAX_TOKENS" = Some s -> exists n, int_of_str s = inr n) ->
  environ w !! "TEMPERATURE" = Some x ->
  float_of_str x = inl e ->
  __init__ w = (Raise e, w).
Proof.
  intros Hk Hs Hx He. unfold_init. rewrite Hk. simpl.
  destruct (environ w !! "MAX_TOKENS") as [s |]; simpl.
  - destruct (Hs s eq_refl) as [n ->]. simpl. now rewrite Hx, He.
  - now rewrite Hx, He.
Qed.

(** ** Entry points when the constructor raises [ValueError] *)

Lemma interactive_mode_config_failure w e :
  fst (__init__ w) = Raise e -> is_ValueError e = true ->
  interactive_mode w = (Ok tt, emit (menu_text ++ [report_text e]) w).
Proof.
  intros Hi He. unfold interactive_mode, bind at 1. rewrite menu_run.
  unfold bind at 1, try_except, bind at 1. rewrite init_frame, Hi. simpl.
  rewrite He. unfold bind. rewrite report_run. unfold ret.
  now rewrite emit_emit.
Qed.

Lemma direct_mode_config_failure prompt w e :
  fst (__init__ w) = Raise e -> is_ValueError e = true ->
  direct_mode prompt w = (Ok tt, emit [report_text e] w).
Proof.
  intros Hi He. unfold direct_mode, try_except, bind at 1.
  rewrite init_run, Hi, He. apply report_run.
Qed.

Lemma init_error_class w e :
  fst (__init__ w) = Raise e -> exc_type e = ValueError.
Proof.
  unfold_init.
  destruct (truthy_opt (environ w !! "OPENAI_API_KEY")); simpl;
    [| now intros [= <-]].
  destruct (environ w !! "MAX_TOKENS") as [s |]; simpl.
  - destruct (int_of_str s) as [e1 | n] eqn:Hs; simpl.
    + intros [= <-]. eapply int_of_str_error, Hs.
    + destruct (environ w !! "TEMPERATURE") as [x |]; simpl; [| discriminate].
      destruct (float_of_str x) as [e2 | y] eqn:Hx; simpl; [| discriminate].
      intros [= <-]. eapply float_of_str_error, Hx.
  - destruct (environ w !! "TEMPERATURE") as [x |]; simpl; [| discriminate].
    destruct (float_of_str x) as [e2 | y] eqn:Hx; simpl; [| discriminate].
    intros [= <-]. eapply float_of_str_error, Hx.
Qed.

Lemma is_ValueError_class e : exc_type e = ValueError -> is_ValueError e = true.
Proof. unfold is_ValueError. now intros ->. Qed.

Lemma run_config_failure argv w e :
  fst (__init__ w) = Raise e ->
  run argv w = (Some 0, emit (failure_output argv e) w).
Proof.
  intros Hi. pose proof (is_ValueError_class e (init_error_class w e Hi)) as He.
  unfold run, main, failure_output. destruct (1 <? length argv)%nat.
  - now rewrite (direct_mode_config_failure _ w e Hi He).
  - now rewrite (interactive_mode_config_failure w e Hi He).
Qed.

Lemma sent_emit {A} (m : M A) w r chunks :
  m w = (r, emit chunks w) -> sent m w = [].
Proof.
  intros H. unfold sent. rewrite H. simpl. apply drop_all.
Qed.

(** C5.  With no [OPENAI_API_KEY] in the environment the constructor
    raises a [ValueError] whose text says where to get a key.  Both
    entry points write that text and return: no request is sent,
    nothing is read from the terminal, and the last thing written is
    the error. *)
Theorem missing_key_stops_entry_points
    (w : World) (prompt : string) (argv : list string)
    (Hkey : environ w !! "OPENAI_API_KEY" = None) :
  __init__ w = (Raise missing_key, w)
  /\ exc_type missing_key = ValueError
  /\ exc_str missing_key
     = "OpenAI API key not found. Please set OPENAI_API_KEY in your .env file."
       +:+ NL +:+ "Get your API key from: https://platform.openai.com/api-keys"
  /\ interactive_mode w
     = (Ok tt, emit (menu_text ++ [report_text missing_key]) w)
  /\ direct_mode prompt w = (Ok tt, emit [report_text missing_key] w)
  /\ (forall m, In m [interactive_mode; direct_mode prompt; main argv] ->
      fst (m w) = Ok tt
      /\ sent m w = []
      /\ stdin (snd (m w)) = stdin w
      /\ last (stdout (snd (m w))) = Some (report_text missing_key)).
Proof.
  assert (Hi : __init__ w = (Raise missing_key, w))
    by (apply init_missing_key; now rewrite Hkey).
  assert (Hf : fst (__init__ w) = Raise missing_key) by now rewrite Hi.
  pose proof (interactive_mode_config_failure w missing_key Hf eq_refl) as Hint.
  pose proof (direct_mode_config_failure prompt w missing_key Hf eq_refl) as Hdir.
  repeat (split; [first [assumption | reflexivity] |]).
  assert (Hall : forall (m : M unit) chunks,
             m w = (Ok tt, emit (chunks ++ [report_text missing_key]) w) ->
             fst (m w) = Ok tt /\ sent m w = []
             /\ stdin (snd (m w)) = stdin w
             /\ last (stdout (snd (m w))) = Some (report_text missing_key)).
  { intros m chunks Hm. split; [now rewrite Hm |].
    split; [eapply sent_emit, Hm |]. rewrite Hm. simpl.
    split; [reflexivity |]. now rewrite app_assoc, last_snoc. }
  intros m Hm. simpl in Hm. destruct Hm as [<- | [<- | [<- | []]]].
  - eapply Hall, Hint.
  - apply (Hall _ []), Hdir.
  - unfold main. destruct (1 <? length argv)%nat.
    + apply (Hall _ []), direct_mode_config_failure; [assumption | reflexivity].
    + eapply Hall, Hint.
Qed.

Lemma missing_key_stops_entry_points_witness :
  interactive_mode (sample_world ∅ ["1"; "reverse a list"; ""])
    = (Ok tt, emit (menu_text ++ [report_text missing_key])
                (sample_world ∅ ["1"; "reverse a list"; ""]))
  /\ direct_mode "reverse a list" (sample_world ∅ [])
     = (Ok tt, emit [report_text missing_key] (sample_world ∅ [])).
Proof.
  split.
  - apply (missing_key_stops_entry_points
             (sample_world ∅ ["1"; "reverse a list"; ""]) "" []).
    reflexivity.
  - apply (missing_key_stops_entry_points (sample_world ∅ [])
             "reverse a list" []).
    reflexivity.
Defined.

(** C8.  When the constructor raises, which it only does with a
    [ValueError] (a missing key or a number that does not parse), the
    entry point chosen by the command line writes the error and the
    script ends with exit status 0. *)
Theorem config_failure_exits_normally
    (w : World) (argv : list string) (e : exception)
    (Hinit : fst (__init__ w) = Raise e) :
  exc_type e = ValueError
  /\ run argv w = (Some 0, emit (failure_output argv e) w)
  /\ last (stdout (snd (run argv w))) = Some (report_text e).
Proof.
  split; [eapply init_error_class, Hinit |].
  rewrite (run_config_failure argv w e Hinit). split; [reflexivity |].
  simpl. unfold failure_output. now rewrite app_assoc, last_snoc.
Qed.

Lemma config_failure_exits_normally_witness :
  run ["main.py"; "reverse"; "a"; "list"] (sample_world ∅ [])
    = (Some 0, emit [report_text missing_key] (sample_world ∅ []))
  /\ run ["main.py"] (sample_world malformed_env ["quit"])
     = (Some 0,
        emit (menu_text
              ++ [report_text (invalid_literal "abc")])
          (sample_world malformed_env ["quit"])).
Proof.
  split.
  - apply (config_failure_exits_normally (sample_world ∅ [])
             ["main.py"; "reverse"; "a"; "list"] missing_key).
    reflexivity.
  - apply (config_failure_exits_normally (sample_world malformed_env ["quit"])
             ["main.py"] (invalid_literal "abc")).
    vm_compute. reflexivity.
Defined.

(** At [malformed_env] the constructor does raise, with the error of
    [int()]; at [malformed_temperature_env], with the error of
    [float()]. *)
Lemma malformed_numbers_raise :
  environ (sample_world malformed_env []) !! "MAX_TOKENS" = Some "abc"
  /\ __init__ (sample_world malformed_env [])
     = (Raise (Exc ValueError "invalid literal for int() with base 10: 'abc'"),
        sample_world malformed_env [])
  /\ environ (sample_world malformed_temperature_env []) !! "TEMPERATURE"
     = Some "hot"
  /\ __init__ (sample_world malformed_temperature_env [])
     = (Raise (Exc ValueError "could not convert string to float: 'hot'"),
        sample_world malformed_temperature_env []).
Proof.
  split; [vm_compute; reflexivity |].
  split; [vm_compute; reflexivity |].
  split; vm_compute; reflexivity.
Qed.

(** C6, as the code has it.  With a key in the environment, a value of
    [MAX_TOKENS] that [int()] rejects, or, when [MAX_TOKENS] is absent
    or accepted, a value of [TEMPERATURE] that [float()] rejects, makes
    the constructor raise the [ValueError] of the conversion.  No
    generator is built; the script writes the error and ends. *)
Theorem malformed_number_is_rejected
    (w : World) (argv : list string) (s : string) (e : exception)
    (Hkey : truthy_opt (environ w !! "OPENAI_API_KEY") = true)
    (Hbad : (environ w !! "MAX_TOKENS" = Some s /\ int_of_str s = inl e)
            \/ ((forall t, environ w !! "MAX_TOKENS" = Some t ->
                          exists n, int_of_str t = inr n)
                /\ environ w !! "TEMPERATURE" = Some s
                /\ float_of_str s = inl e)) :
  __init__ w = (Raise e, w)
  /\ exc_type e = ValueError
  /\ run argv w = (Some 0, emit (failure_output argv e) w)
  /\ sent (main argv) w = [].
Proof.
  assert (Hi : __init__ w = (Raise e, w)).
  { destruct Hbad as [[Hs He] | (Hm & Hs & He)].
    - eapply init_bad_max_tokens; eassumption.
    - eapply init_bad_temperature; eassumption. }
  assert (Hf : fst (__init__ w) = Raise e) by now rewrite Hi.
  pose proof (run_config_failure argv w e Hf) as Hrun.
  repeat (split; [first [assumption | eapply init_error_class, Hf] |]).
  unfold run in Hrun. destruct (main argv w) as [r w'] eqn:Hm.
  injection Hrun as _ ->. eapply sent_emit, Hm.
Qed.

Lemma malformed_number_is_rejected_witness :
  __init__ (sample_world malformed_env [])
    = (Raise (invalid_literal "abc"), sample_world malformed_env [])
  /\ __init__ (sample_world malformed_temperature_env [])
     = (Raise (could_not_convert "hot"),
        sample_world malformed_temperature_env []).
Proof.
  split.
  - apply (malformed_number_is_rejected (sample_world malformed_env []) []
             "abc" (invalid_literal "abc")).
    + vm_compute. reflexivity.
    + left. split; vm_compute; reflexivity.
  - apply (malformed_number_is_rejected
             (sample_world malformed_temperature_env []) []
             "hot" (could_not_convert "hot")).
    + vm_compute. reflexivity.
    + right. split; [| split; vm_compute; reflexivity].
      intros t Ht. exists 2000.
      assert (Some t = Some "2000") as [= ->];
        [rewrite <- Ht; vm_compute; reflexivity | vm_compute; reflexivity].
Defined.

(** * Loops *)

Lemma iterate_enough {S R} (body : S -> M (S + R)) :
  shrinks body ->
  forall n m s w,
    (length (stdin w) < n)%nat -> (length (stdin w) < m)%nat ->
    iterate n body s w = iterate m body s w.
Proof.
  intros Hb. induction n as [| n IH]; intros m s w Hn Hm; [lia |].
  destruct m as [| m]; [lia |]. simpl. unfold bind.
  destruct (body s w) as [[[s' | v] | e |] w'] eqn:E; try reflexivity.
  apply Hb in E. apply IH; lia.
Qed.

Lemma iterate_step {S R} (body : S -> M (S + R)) n s w :
  iterate (Datatypes.S n) body s w =
    match body s w with
    | (Ok (inl s'), w') => iterate n body s' w'
    | (Ok (inr v), w') => (Ok v, w')
    | (Raise e, w') => (Raise e, w')
    | (OutOfFuel, w') => (OutOfFuel, w')
    end.
Proof.
  simpl. unfold bind. now destruct (body s w) as [[[s' | v] | e |] w'].
Qed.

(** With one more round than there are lines the loop has all the fuel
    it needs: it obeys the equation of [while True:]. *)
Lemma while_true_unfold {S R} (body : S -> M (S + R)) s w :
  shrinks body ->
  while_true body s w =
    match body s w with
    | (Ok (inl s'), w') => while_true body s' w'
    | (Ok (inr v), w') => (Ok v, w')
    | (Raise e, w') => (Raise e, w')
    | (OutOfFuel, w') => (OutOfFuel, w')
    end.
Proof.
  intros Hb. unfold while_true. rewrite iterate_step.
  destruct (body s w) as [[[s' | v] | e |] w'] eqn:E; try reflexivity.
  apply Hb in E. apply iterate_enough; [assumption | lia | lia].
Qed.

(** ** Tame actions *)

Lemma tame_ret {A} (a : A) : tame (ret a).
Proof. intros w r w' [= <- <-]. repeat split; reflexivity. Qed.

Lemma tame_bind {A B} (m : M A) (k : A -> M B) :
  tame m -> (forall a, tame (k a)) -> tame (bind m k).
Proof.
  intros Hm Hk w r w' H. unfold bind in H.
  destruct (m w) as [[a | e |] w1] eqn:E; destruct (Hm _ _ _ E) as (Hi & Ho & Hr).
  - destruct (Hk a _ _ _ H) as (Hi' & Ho' & Hr').
    split; [etrans; eassumption |]. split; [etrans; eassumption | assumption].
  - injection H as <- <-. auto.
  - contradiction.
Qed.

Lemma tame_write s : tame (write s).
Proof.
  intros w r w' [= <- <-]. simpl.
  split; [reflexivity |]. split; [apply prefix_app_r; reflexivity | exact I].
Qed.

Lemma tame_print s : tame (print s).
Proof. apply tame_write. Qed.

Lemma tame_read_line : tame read_line.
Proof.
  intros w r w' H. unfold read_line in H.
  destruct (stdin w) as [| line rest] eqn:E; injection H as <- <-; simpl.
  - rewrite E. repeat split; reflexivity.
  - split; [apply suffix_cons_r; reflexivity |]. split; [reflexivity | exact I].
Qed.

Lemma tame_input prompt : tame (input prompt).
Proof.
  apply tame_bind; [apply tame_write | intros _; apply tame_read_line].
Qed.

Lemma tame_generate_code self prompt language :
  tame (generate_code self prompt language).
Proof.
  intros w r w' H. rewrite generate_code_run in H. injection H as <- <-.
  repeat split; reflexivity.
Qed.

Lemma tame_explain_code self code : tame (explain_code self code).
Proof.
  intros w r w' H. rewrite explain_code_run in H. injection H as <- <-.
  repeat split; reflexivity.
Qed.

Lemma tame_while {S R} (body : S -> M (S + R)) :
  shrinks body -> (forall s, tame (body s)) ->
  forall s, tame (while_true body s).
Proof.
  intros Hs Hb s w. remember (length (stdin w)) as n eqn:Hn.
  revert s w Hn. induction n as [n IH] using lt_wf_ind.
  intros s w -> r w' H. rewrite while_true_unfold in H by assumption.
  destruct (body s w) as [[[s' | v] | e |] w1] eqn:E;
    destruct (Hb _ _ _ _ E) as (Hi & Ho & Hr).
  - destruct (IH (length (stdin w1)) (Hs _ _ _ _ E) s' w1 eq_refl _ _ H)
      as (Hi' & Ho' & Hr').
    split; [etrans; eassumption |]. split; [etrans; eassumption | assumption].
  - injection H as <- <-. auto.
  - injection H as <- <-. auto.
  - contradiction.
Qed.

Create HintDb tame.
#[local] Hint Resolve tame_ret tame_write tame_print tame_read_line tame_input
  tame_generate_code tame_explain_code : tame.

Ltac tame_steps :=
  repeat first
    [ solve [auto with tame]
    | apply tame_bind; [| intros ?] ].

(** ** Reading a block of code *)

Lemma read_code_round_run lines w :
  read_code_round lines w =
    match stdin w with
    | [] => (Raise EOF_error, w)
    | line :: rest =>
        (Ok (if String.eqb (strip line) "END" then Break lines
             else Continue (lines ++ [line])),
         set_stdin rest w)
    end.
Proof.
  unfold read_code_round, bind, read_line.
  destruct (stdin w) as [| line rest]; [reflexivity |].
  now destruct (String.eqb (strip line) "END").
Qed.

Lemma read_code_round_shrinks : shrinks read_code_round.
Proof.
  intros lines w lines' w' H. rewrite read_code_round_run in H.
  destruct (stdin w) as [| line rest]; [discriminate |].
  injection H as _ <-. simpl. lia.
Qed.

Lemma tame_read_code_round lines : tame (read_code_round lines).
Proof.
  unfold read_code_round. apply tame_bind; [apply tame_read_line |].
  intros line. destruct (String.eqb _ _); apply tame_ret.
Qed.

Lemma set_stdin_same w : set_stdin (stdin w) w = w.
Proof. now destruct w. Qed.

Lemma read_lines_run lines w :
  while_true read_code_round lines w =
    match split_at_END (stdin w) with
    | Some (block, rest) => (Ok (lines ++ block), set_stdin rest w)
    | None => (Raise EOF_error, set_stdin [] w)
    end.
Proof.
  remember (stdin w) as l eqn:Hl. revert lines w Hl.
  induction l as [| x l IH]; intros lines w Hl;
    rewrite while_true_unfold by apply read_code_round_shrinks;
    rewrite read_code_round_run, <- Hl.
  - simpl. now rewrite Hl, set_stdin_same.
  - simpl. destruct (String.eqb (strip x) "END").
    + now rewrite app_nil_r.
    + rewrite (IH (lines ++ [x]) (set_stdin l w) eq_refl).
      destruct (split_at_END l) as [[block rest] |]; [| reflexivity].
      now rewrite <- app_assoc.
Qed.

Lemma read_code_run w :
  read_code w =
    match split_at_END (stdin w) with
    | Some (block, rest) => (Ok (join NL block), set_stdin rest w)
    | None => (Raise EOF_error, set_stdin [] w)
    end.
Proof.
  unfold read_code, bind. rewrite read_lines_run.
  now destruct (split_at_END (stdin w)) as [[block rest] |].
Qed.

Lemma split_at_END_app block e rest :
  Forall (fun l => strip l <> "END") block -> strip e = "END" ->
  split_at_END (block ++ e :: rest) = Some (block, rest).
Proof.
  intros Hb He. induction Hb as [| x block Hx Hb IH]; simpl.
  - now rewrite He.
  - apply String.eqb_neq in Hx. now rewrite Hx, IH.
Qed.

Lemma tame_read_code : tame read_code.
Proof.
  unfold read_code. apply tame_bind; [| intros; apply tame_ret].
  apply tame_while; [apply read_code_round_shrinks | apply tame_read_code_round].
Qed.

#[local] Hint Resolve tame_read_code : tame.

(** ** The command loop *)

Lemma tame_heading title : tame (heading title).
Proof. unfold heading. tame_steps. Qed.

#[local] Hint Resolve tame_heading : tame.

Lemma tame_do_generate g : tame (do_generate g).
Proof. unfold do_generate. tame_steps. Qed.

Lemma tame_do_complete g : tame (do_complete g).
Proof. unfold do_complete, complete_code. tame_steps. Qed.

Lemma tame_do_explain g : tame (do_explain g).
Proof. unfold do_explain. tame_steps. Qed.

Lemma tame_do_refactor g : tame (do_refactor g).
Proof. unfold do_refactor, refactor_code. tame_steps. Qed.

Lemma tame_do_debug g : tame (do_debug g).
Proof. unfold do_debug, debug_code. tame_steps. Qed.

#[local] Hint Resolve tame_do_generate tame_do_complete tame_do_explain
  tame_do_refactor tame_do_debug : tame.

Lemma tame_dispatch g command : tame (dispatch g command).
Proof.
  unfold dispatch.
  repeat match goal with
         | |- tame (if ?b then _ else _) => destruct b
         end; tame_steps.
Qed.

Lemma command_round_run g u w line rest :
  stdin w = line :: rest ->
  command_round g u w = dispatch g (lower (strip line)) (asked rest w).
Proof.
  intros H. unfold command_round, bind, print, input, bind, write, read_line.
  simpl. rewrite H. unfold asked. now rewrite emit_emit.
Qed.

Lemma command_round_eof g u w :
  stdin w = [] ->
  command_round g u w
    = (Raise EOF_error, emit [question_text; command_prompt] w).
Proof.
  intros H. unfold command_round, bind, print, input, bind, write, read_line.
  simpl. rewrite H. now rewrite emit_emit.
Qed.

Lemma command_round_shrinks g : shrinks (command_round g).
Proof.
  intros u w u' w' H. destruct (stdin w) as [| line rest] eqn:E.
  - rewrite command_round_eof in H by assumption. discriminate.
  - rewrite (command_round_run _ _ _ _ _ E) in H.
    apply tame_dispatch in H as (Hi & _). apply suffix_length in Hi.
    simpl in *. lia.
Qed.

Lemma tame_command_round g u : tame (command_round g u).
Proof.
  unfold command_round. tame_steps. apply tame_dispatch.
Qed.

Lemma tame_command_loop g : tame (command_loop g).
Proof.
  apply tame_while; [apply command_round_shrinks | apply tame_command_round].
Qed.

Lemma str_in_In x l : str_in x l = true <-> In x l.
Proof.
  unfold str_in. rewrite existsb_exists. split.
  - intros (y & Hy & E). apply String.eqb_eq in E. now subst.
  - intros H. exists x. split; [assumption | apply String.eqb_refl].
Qed.


Lemma dispatch_generate g command :
  In command generate_tokens ->
  dispatch g command = (do_generate g ;; ret (Continue tt)).
Proof. intros [<- | [<- | []]]; reflexivity. Qed.




(** Whatever else the loop does, it starts by asking for a command. *)
Lemma command_loop_asks_first g w :
  exists more,
    stdout (snd (command_loop g w))
      = stdout w ++ [question_text; command_prompt] ++ more.
Proof.
  unfold command_loop.
  rewrite while_true_unfold by apply command_round_shrinks.
  destruct (stdin w) as [| line rest] eqn:E.
  - rewrite command_round_eof by assumption. now exists [].
  - rewrite (command_round_run _ _ _ _ _ E).
    destruct (dispatch g _ _) as [r1 w1] eqn:R.
    pose proof (tame_dispatch _ _ _ _ _ R) as (_ & [k Hk] & _).
    simpl in Hk. rewrite <- app_assoc in Hk.
    destruct r1 as [[[] | []] | e |]; simpl; try (now exists k).
    destruct (while_true _ _ _) as [r2 w2] eqn:L.
    pose proof (tame_command_loop _ _ _ _ L) as (_ & [k' Hk'] & _).
    simpl. exists (k ++ k'). now rewrite Hk', Hk, <- !app_assoc.
Qed.

Lemma interactive_mode_run w g :
  fst (__init__ w) = Ok g ->
  interactive_mode w = command_loop g (emit menu_text w).
Proof.
  intros H. unfold interactive_mode, bind at 1. rewrite menu_run.
  unfold bind at 1, try_except, bind at 1. now rewrite init_frame, H.
Qed.



(** ** The optional fields read in interactive mode *)

Lemma do_generate_sends g w prompt aux rest :
  stdin w = prompt :: aux :: rest ->
  sent (do_generate g) w
    = [generate_request g prompt
         (if truthy (strip aux) then Some (strip aux) else None)].
Proof.
  intros H.
  unfold sent, do_generate, heading, bind, print, input, bind, write, read_line.
  simpl. rewrite H. simpl. rewrite generate_code_run. simpl.
  now rewrite drop_app_length.
Qed.

Ltac read_block Hb He H :=
  unfold heading, bind, print, input, bind, write;
  simpl; rewrite read_code_run; simpl;
  rewrite H, (split_at_END_app _ _ _ Hb He);
  unfold read_line; simpl.

Lemma do_complete_sends g w block e aux rest :
  Forall (fun l => strip l <> "END") block -> strip e = "END" ->
  stdin w = block ++ e :: aux :: rest ->
  sent (do_complete g) w
    = [generate_request g (complete_prompt (join NL block) (strip aux)) None].
Proof.
  intros Hb He H. unfold sent, do_complete, complete_code.
  read_block Hb He H. rewrite generate_code_run. simpl.
  now rewrite drop_app_length.
Qed.

Lemma do_refactor_sends g w block e aux rest :
  Forall (fun l => strip l <> "END") block -> strip e = "END" ->
  stdin w = block ++ e :: aux :: rest ->
  sent (do_refactor g) w
    = [generate_request g
         (refactor_prompt (join NL block)
            (if truthy (strip aux) then strip aux else default_goal)) None].
Proof.
  intros Hb He H. unfold sent, do_refactor, refactor_code.
  read_block Hb He H. rewrite generate_code_run. simpl.
  now rewrite drop_app_length.
Qed.

Lemma do_debug_sends g w block e aux rest :
  Forall (fun l => strip l <> "END") block -> strip e = "END" ->
  stdin w = block ++ e :: aux :: rest ->
  sent (do_debug g) w
    = [generate_request g (debug_prompt (join NL block) (strip aux)) None].
Proof.
  intros Hb He H. unfold sent, do_debug, debug_code.
  read_block Hb He H. rewrite generate_code_run. simpl.
  now rewrite drop_app_length.
Qed.

(** C10.  In interactive mode the language, the context, the
    refactoring goal and the error message are stripped before they are
    used.  When what is left is empty the request is the one for an
    absent field: the system message is the base text alone, the
    context and error-message suffixes are left out, and the goal is
    "improve readability and efficiency".  Otherwise the stripped text
    is what goes into the request. *)
Theorem auxiliary_fields_are_stripped
    (generator : CodexGenerator.t) (w : World)
    (prompt aux e : string) (block rest : list string)
    (Hblock : Forall (fun l => strip l <> "END") block)
    (Hend : strip e = "END") :
  let field := strip aux in
  let code := join NL block in
  let language := if truthy field then Some field else None in
  let goal := if truthy field then field else default_goal in
  (stdin w = prompt :: aux :: rest ->
   sent (do_generate generator) w = [generate_request generator prompt language]
   /\ (field = "" ->
       instruction "system" (generate_request generator prompt language)
         = [system_base])
   /\ (field <> "" ->
       instruction "system" (generate_request generator prompt language)
         = [system_base +:+ " Generate code in " +:+ field +:+ "."]))
  /\ (stdin w = block ++ e :: aux :: rest ->
      sent (do_complete generator) w
        = [generate_request generator (complete_prompt code field) None]
      /\ sent (do_refactor generator) w
         = [generate_request generator (refactor_prompt code goal) None]
      /\ sent (do_debug generator) w
         = [generate_request generator (debug_prompt code field) None])
  /\ (field = "" ->
      complete_prompt code field
        = "Complete the following code:" +:+ NL +:+ NL +:+ code
      /\ refactor_prompt code goal
         = "Refactor the following code to "
           +:+ "improve readability and efficiency" +:+ ":"
           +:+ NL +:+ NL +:+ code
      /\ debug_prompt code field
         = "Debug and fix the following code:" +:+ NL +:+ NL +:+ code)
  /\ (field <> "" ->
      complete_prompt code field
        = "Complete the following code:" +:+ NL +:+ NL +:+ code
          +:+ NL +:+ NL +:+ "Context: " +:+ field
      /\ refactor_prompt code goal
         = "Refactor the following code to " +:+ field +:+ ":"
           +:+ NL +:+ NL +:+ code
      /\ debug_prompt code field
         = "Debug and fix the following code:" +:+ NL +:+ NL +:+ code
           +:+ NL +:+ NL +:+ "Error message: " +:+ field).
Proof.
  cbv zeta. split; [| split; [| split]].
  - intros H. split; [exact (do_generate_sends _ _ _ _ _ H) |]. split.
    + intros ->. reflexivity.
    + intros Hf. rewrite (truthy_nonempty _ Hf). unfold instruction. simpl.
      now rewrite system_message_decorated.
  - intros H. split; [eapply do_complete_sends; eassumption |].
    split; [eapply do_refactor_sends; eassumption |].
    eapply do_debug_sends; eassumption.
  - intros ->. repeat split.
  - intros Hf. rewrite (truthy_nonempty _ Hf).
    split; [now apply complete_prompt_context |].
    split; [reflexivity | now apply debug_prompt_error].
Qed.

Lemma auxiliary_fields_are_stripped_witness :
  let w := sample_world ∅ ["reverse a list"; "  Python  "] in
  let v := sample_world ∅ ["def f():"; "    pass"; " END "; "   "] in
  sent (do_generate sample_generator) w
    = [generate_request sample_generator "reverse a list" (Some "Python")]
  /\ sent (do_refactor sample_generator) v
     = [generate_request sample_generator
          (refactor_prompt ("def f():" +:+ NL +:+ "    pass") default_goal)
          None]
  /\ sent (do_debug sample_generator) v
     = [generate_request sample_generator
          ("Debug and fix the following code:" +:+ NL +:+ NL
           +:+ "def f():" +:+ NL +:+ "    pass") None].
Proof.
  cbv zeta.
  assert (Hb : Forall (fun l => strip l <> "END") ["def f():"; "    pass"])
    by (repeat constructor; vm_compute; discriminate).
  assert (He : strip " END " = "END") by reflexivity.
  destruct (auxiliary_fields_are_stripped sample_generator
              (sample_world ∅ ["reverse a list"; "  Python  "])
              "reverse a list" "  Python  " " END " ["def f():"; "    pass"] []
              Hb He) as (Hgen & _).
  destruct (auxiliary_fields_are_stripped sample_generator
              (sample_world ∅ ["def f():"; "    pass"; " END "; "   "])
              "" "   " " END " ["def f():"; "    pass"] []
              Hb He) as (_ & Hcode & _).
  destruct (Hgen eq_refl) as (Hg & _).
  destruct (Hcode eq_refl) as (_ & Hr & Hd).
  split; [exact Hg |]. split; [exact Hr | exact Hd].
Defined.

(** * More about the constructor *)

Lemma init_success w key n x :
  environ w !! "OPENAI_API_KEY" = Some key -> key <> "" ->
  match environ w !! "MAX_TOKENS" with
  | Some s => int_of_str s = inr n
  | None => n = 1000
  end ->
  match environ w !! "TEMPERATURE" with
  | Some s => float_of_str s = inr x
  | None => x = 0.7%float
  end ->
  __init__ w
    = (Ok {| api_key := key; client := OpenAI w key;
             model := default "gpt-4" (environ w !! "MODEL_NAME");
             max_tokens := n; temperature := x |}, w).
Proof.
  intros Hkey Hk Hn Hx. unfold_init. rewrite Hkey. simpl.
  rewrite (truthy_nonempty _ Hk). simpl.
  destruct (environ w !! "MAX_TOKENS") as [s |]; simpl;
    [rewrite Hn | rewrite Hn]; simpl;
    (destruct (environ w !! "TEMPERATURE") as [t |]; simpl;
     [rewrite Hx | rewrite Hx]; reflexivity).
Qed.

(** X1.  With a non-empty key in the environment the constructor
    returns a generator made of that key, the client for that key, the
    value of [MODEL_NAME] (or "gpt-4" when it is not set), the integer
    that [int()] reads from [MAX_TOKENS] (or 1000) and the number that
    [float()] reads from [TEMPERATURE] (or 0.7).  The values are taken
    as they are read: nothing checks their range. *)
Theorem constructor_success
    (w : World) (key : string) (n : Z) (x : float)
    (Hkey : environ w !! "OPENAI_API_KEY" = Some key) (Hk : key <> "")
    (Hn : match environ w !! "MAX_TOKENS" with
          | Some s => int_of_str s = inr n
          | None => n = 1000
          end)
    (Hx : match environ w !! "TEMPERATURE" with
          | Some s => float_of_str s = inr x
          | None => x = 0.7%float
          end) :
  __init__ w
    = (Ok {| api_key := key; client := OpenAI w key;
             model := default "gpt-4" (environ w !! "MODEL_NAME");
             max_tokens := n; temperature := x |}, w).
Proof. now apply init_success. Qed.

Lemma constructor_success_witness :
  __init__ (sample_world odd_env [])
    = (Ok {| api_key := "sk-test"; client := timeout_client; model := "";
             max_tokens := -5; temperature := nan |},
       sample_world odd_env [])
  /\ __init__ (sample_world key_env [])
     = (Ok {| api_key := "sk-test"; client := timeout_client;
              model := "gpt-4"; max_tokens := 1000;
              temperature := 0.7%float |},
        sample_world key_env []).
Proof.
  split.
  - apply (constructor_success (sample_world odd_env []) "sk-test" (-5) nan);
      [reflexivity | discriminate | vm_compute; reflexivity
      | vm_compute; reflexivity].
  - apply (constructor_success (sample_world key_env []) "sk-test" 1000
             0.7%float);
      [reflexivity | discriminate | reflexivity | reflexivity].
Defined.

Lemma int_of_str_not_missing_key s e :
  int_of_str s = inl e -> e <> missing_key.
Proof.
  unfold int_of_str. destruct (split_sign _) as [neg body].
  destruct (scan_digits _ _ _ _) as [[[v n] rest] |];
    [| intros [= <-]; discriminate].
  destruct (_ <? _)%nat; [intros [= <-]; discriminate |].
  destruct (lstrip_with _ _); [discriminate | intros [= <-]; discriminate].
Qed.

Lemma float_of_str_not_missing_key s e :
  float_of_str s = inl e -> e <> missing_key.
Proof.
  unfold float_of_str. destruct (parse_float s); [discriminate |].
  intros [= <-]. discriminate.
Qed.

(** X2.  The constructor raises the missing-key error exactly when
    [OPENAI_API_KEY] is not set or is set to the empty string. *)
Theorem missing_key_iff_absent_or_empty (w : World) :
  fst (__init__ w) = Raise missing_key
  <-> environ w !! "OPENAI_API_KEY" = None
      \/ environ w !! "OPENAI_API_KEY" = Some "".
Proof.
  split.
  - destruct (environ w !! "OPENAI_API_KEY") as [[| c key] |] eqn:Hkey;
      [now right | | now left].
    intros H. exfalso. revert H. unfold_init. rewrite Hkey. simpl.
    destruct (environ w !! "MAX_TOKENS") as [s |]; simpl.
    + destruct (int_of_str s) as [e1 | n] eqn:Hs; simpl.
      * intros [= ->]. now apply int_of_str_not_missing_key in Hs.
      * destruct (environ w !! "TEMPERATURE") as [x |]; simpl; [| discriminate].
        destruct (float_of_str x) as [e2 | y] eqn:Hx; simpl; [| discriminate].
        intros [= ->]. now apply float_of_str_not_missing_key in Hx.
    + destruct (environ w !! "TEMPERATURE") as [x |]; simpl; [| discriminate].
      destruct (float_of_str x) as [e2 | y] eqn:Hx; simpl; [| discriminate].
      intros [= ->]. now apply float_of_str_not_missing_key in Hx.
  - intros H. rewrite init_missing_key; [reflexivity |].
    now destruct H as [-> | ->].
Qed.

Lemma missing_key_iff_absent_or_empty_witness :
  fst (__init__ (sample_world (<["OPENAI_API_KEY" := ""]> ∅) []))
    = Raise missing_key
  /\ fst (__init__ (sample_world malformed_env [])) <> Raise missing_key.
Proof.
  split.
  - apply (missing_key_iff_absent_or_empty
             (sample_world (<["OPENAI_API_KEY" := ""]> ∅) [])).
    right. reflexivity.
  - intros H.
    apply (missing_key_iff_absent_or_empty (sample_world malformed_env []))
      in H.
    destruct H as [H | H]; vm_compute in H; discriminate H.
Defined.

Lemma init_cases w :
  (exists g, fst (__init__ w) = Ok g) \/ (exists e, fst (__init__ w) = Raise e).
Proof.
  unfold_init.
  destruct (truthy_opt (environ w !! "OPENAI_API_KEY")); simpl; [| eauto].
  destruct (environ w !! "MAX_TOKENS") as [s |]; simpl.
  - destruct (int_of_str s); simpl; [eauto |].
    destruct (environ w !! "TEMPERATURE") as [x |]; simpl; [| eauto].
    destruct (float_of_str x); simpl; eauto.
  - destruct (environ w !! "TEMPERATURE") as [x |]; simpl; [| eauto].
    destruct (float_of_str x); simpl; eauto.
Qed.

Lemma init_fields w g :
  fst (__init__ w) = Ok g ->
  api_key g <> ""
  /\ environ w !! "OPENAI_API_KEY" = Some (api_key g)
  /\ client g = OpenAI w (api_key g)
  /\ model g = default "gpt-4" (environ w !! "MODEL_NAME")
  /\ match environ w !! "MAX_TOKENS" with
     | Some s => int_of_str s = inr (max_tokens g)
     | None => max_tokens g = 1000
     end
  /\ match environ w !! "TEMPERATURE" with
     | Some s => float_of_str s = inr (temperature g)
     | None => temperature g = 0.7%float
     end.
Proof.
  unfold_init.
  destruct (environ w !! "OPENAI_API_KEY") as [[| c key] |]; simpl;
    [discriminate | | discriminate].
  destruct (environ w !! "MAX_TOKENS") as [s |]; simpl.
  - destruct (int_of_str s) as [e1 | n]; simpl; [discriminate |].
    destruct (environ w !! "TEMPERATURE") as [x |]; simpl.
    + destruct (float_of_str x) as [e2 | y]; simpl; [discriminate |].
      intros [= <-]. simpl. repeat split; discriminate.
    + intros [= <-]. simpl. repeat split; discriminate.
  - destruct (environ w !! "TEMPERATURE") as [x |]; simpl.
    + destruct (float_of_str x) as [e2 | y]; simpl; [discriminate |].
      intros [= <-]. simpl. repeat split; discriminate.
    + intros [= <-]. simpl. repeat split; discriminate.
Qed.

(** X3.  Building a generator changes nothing: no line is read, nothing
    is written, no request is sent.  The constructor either raises a
    [ValueError] or returns a generator, and a generator that was built
    always holds the non-empty key of the environment and the client
    made for that key. *)
Theorem constructor_outcome (w : World) :
  snd (__init__ w) = w
  /\ ((exists e, fst (__init__ w) = Raise e /\ exc_type e = ValueError)
      \/ (exists g, fst (__init__ w) = Ok g
                    /\ api_key g <> ""
                    /\ environ w !! "OPENAI_API_KEY" = Some (api_key g)
                    /\ client g = OpenAI w (api_key g))).
Proof.
  split; [apply init_keeps_world |].
  destruct (init_cases w) as [[g Hg] | [e He]].
  - right. exists g. split; [assumption |].
    destruct (init_fields w g Hg) as (H1 & H2 & H3 & _). auto.
  - left. exists e. split; [assumption | eapply init_error_class, He].
Qed.

(** * More about the completion methods *)

(** X4.  [generate_code] and [explain_code] always return: whatever the
    service does, exactly one request is added to the log and the
    terminal is left alone.  When the service answers, the text of the
    first choice is returned and the other choices are ignored; when it
    answers with no choice at all, the index error is turned into text
    like any other failure. *)
Theorem completion_always_returns
    (self : CodexGenerator.t) (w : World)
    (prompt code : string) (language : option string) :
  let greq := generate_request self prompt language in
  let ereq := explain_request self code in
  (exists text, generate_code self prompt language w
                = (Ok text, log_request greq w))
  /\ (exists text, explain_code self code w = (Ok text, log_request ereq w))
  /\ (forall r c cs,
        client self (length (requests w)) greq = inr r ->
        choices r = c :: cs ->
        fst (generate_code self prompt language w) = Ok c)
  /\ (forall r c cs,
        client self (length (requests w)) ereq = inr r ->
        choices r = c :: cs ->
        fst (explain_code self code w) = Ok c)
  /\ (forall r,
        client self (length (requests w)) greq = inr r ->
        choices r = [] ->
        fst (generate_code self prompt language w)
          = Ok (Some "Error generating code: list index out of range"))
  /\ (forall r,
        client self (length (requests w)) ereq = inr r ->
        choices r = [] ->
        fst (explain_code self code w)
          = Ok (Some "Error explaining code: list index out of range")).
Proof.
  cbv zeta. rewrite generate_code_run, explain_code_run.
  split; [eexists; reflexivity |]. split; [eexists; reflexivity |].
  repeat split; intros; simpl;
    match goal with
    | H : client _ _ _ = _ |- _ => rewrite H; simpl
    end;
    match goal with
    | H : choices _ = _ |- _ => now rewrite H
    end.
Qed.

Lemma completion_always_returns_witness :
  let answering :=
    {| api_key := "sk-test"; client := answering_client "def f(): pass";
       model := "gpt-4"; max_tokens := 1000; temperature := 0.7%float |} in
  let silent :=
    {| api_key := "sk-test"; client := fun _ _ => inr {| choices := [] |};
       model := "gpt-4"; max_tokens := 1000; temperature := 0.7%float |} in
  fst (generate_code answering "a function" None (sample_world ∅ []))
    = Ok (Some "def f(): pass")
  /\ fst (explain_code silent "x = 1" (sample_world ∅ []))
     = Ok (Some "Error explaining code: list index out of range").
Proof.
  cbv zeta. split.
  - eapply (completion_always_returns _ (sample_world ∅ []) "a function" ""
              None); reflexivity.
  - eapply (completion_always_returns _ (sample_world ∅ []) "" "x = 1" None);
      reflexivity.
Defined.

(** X5.  [explain_code] sends its own system message and the user
    message "Explain this code:", a blank line and the code; the model
    and the limit are those of the generator.  [refactor_code] sends
    the system message of [generate_code] with no language and the user
    message "Refactor the following code to ", the goal as given, a
    colon, a blank line and the code: the method has no fallback of its
    own, so an empty goal leaves "to :" in the message. *)
Theorem explain_and_refactor_instructions
    (self : CodexGenerator.t) (w : World) (code goal : string) :
  (exists r,
      sent (explain_code self code) w = [r]
      /\ instruction "system" r
         = ["You are a helpful code explainer. Provide clear, concise explanations of code."]
      /\ instruction "user" r = ["Explain this code:" +:+ NL +:+ NL +:+ code]
      /\ from_generator self r)
  /\ (exists r,
        sent (refactor_code self code goal) w = [r]
        /\ instruction "system" r = [system_base]
        /\ instruction "user" r
           = ["Refactor the following code to " +:+ goal +:+ ":"
              +:+ NL +:+ NL +:+ code]
        /\ from_generator self r
        /\ (goal = "" ->
            instruction "user" r
              = ["Refactor the following code to :" +:+ NL +:+ NL +:+ code])).
Proof.
  split.
  - exists (explain_request self code).
    split; [apply sent_explain_code |]. repeat split.
  - exists (generate_request self (refactor_prompt code goal) None).
    split; [apply sent_generate_code |]. repeat split. now intros ->.
Qed.

Lemma explain_and_refactor_instructions_witness :
  exists r,
    sent (refactor_code sample_generator "x=1" "") (sample_world ∅ []) = [r]
    /\ instruction "user" r
       = ["Refactor the following code to :" +:+ NL +:+ NL +:+ "x=1"].
Proof.
  destruct (explain_and_refactor_instructions sample_generator
              (sample_world ∅ []) "x=1" "") as (_ & r & Hs & _ & _ & _ & Hg).
  exists r. split; [exact Hs | exact (Hg eq_refl)].
Defined.

(** * Relations kept by every action *)

Section Preserved.

Variable R : World -> World -> Prop.
Hypothesis R_refl : forall w, R w w.
Hypothesis R_trans : forall a b c, R a b -> R b c -> R a c.

Lemma preserves_ret {A} (a : A) : preserves R (ret a).
Proof. intros w r w' [= <- <-]. apply R_refl. Qed.

Lemma preserves_bind {A B} (m : M A) (k : A -> M B) :
  preserves R m -> (forall a, preserves R (k a)) -> preserves R (bind m k).
Proof.
  intros Hm Hk w r w' H. unfold bind in H.
  destruct (m w) as [[a | e |] w1] eqn:E; pose proof (Hm _ _ _ E) as H1.
  - eapply R_trans; [exact H1 | eapply Hk, H].
  - now injection H as <- <-.
  - now injection H as <- <-.
Qed.

Lemma preserves_iterate {St T} (body : St -> M (St + T)) :
  (forall s, preserves R (body s)) ->
  forall n s, preserves R (iterate n body s).
Proof.
  intros Hb. induction n as [| n IH]; intros s.
  - intros w r w' [= <- <-]. apply R_refl.
  - simpl. apply preserves_bind; [apply Hb |].
    intros [s' | v]; [apply IH | apply preserves_ret].
Qed.

Lemma preserves_while {St T} (body : St -> M (St + T)) s :
  (forall s, preserves R (body s)) -> preserves R (while_true body s).
Proof.
  intros Hb w r w' H. unfold while_true in H.
  eapply preserves_iterate; eassumption.
Qed.

(** Relations that writing and reading a line keep. *)
Section Terminal.

Hypothesis R_emit : forall w chunks, R w (emit chunks w).
Hypothesis R_read :
  forall w line rest, stdin w = line :: rest -> R w (set_stdin rest w).

Lemma preserves_write s : preserves R (write s).
Proof. intros w r w' [= <- <-]. apply R_emit. Qed.

Lemma preserves_print s : preserves R (print s).
Proof. apply preserves_write. Qed.

Lemma preserves_read_line : preserves R read_line.
Proof.
  intros w r w' H. unfold read_line in H.
  destruct (stdin w) as [| line rest] eqn:E; injection H as <- <-.
  - apply R_refl.
  - eapply R_read, E.
Qed.

Lemma preserves_input prompt : preserves R (input prompt).
Proof.
  apply preserves_bind; [apply preserves_write |].
  intros _. apply preserves_read_line.
Qed.

Lemma preserves_heading title : preserves R (heading title).
Proof.
  unfold heading.
  repeat (apply preserves_bind; [apply preserves_print | intros _]).
  apply preserves_print.
Qed.

Lemma preserves_read_code : preserves R read_code.
Proof.
  unfold read_code. apply preserves_bind; [| intros; apply preserves_ret].
  apply preserves_while. intros lines. unfold read_code_round.
  apply preserves_bind; [apply preserves_read_line |].
  intros line. destruct (String.eqb _ _); apply preserves_ret.
Qed.

Ltac preserved_steps :=
  repeat first
    [ assumption
    | apply preserves_ret
    | apply preserves_print
    | apply preserves_input
    | apply preserves_heading
    | apply preserves_read_code
    | match goal with
      | H : forall p l, preserves R (generate_code _ p l) |- _ => apply H
      | H : forall c, preserves R (explain_code _ c) |- _ => apply H
      end
    | apply preserves_bind; [| intros ?] ].

(** Relations that the two calls of a generator keep as well. *)
Section Branches.

Variable g : CodexGenerator.t.
Hypothesis R_generate :
  forall p l, preserves R (generate_code g p l).
Hypothesis R_explain : forall c, preserves R (explain_code g c).

Lemma preserves_dispatch command : preserves R (dispatch g command).
Proof.
  unfold dispatch.
  repeat match goal with
         | |- preserves R (if ?b then _ else _) => destruct b
         end;
    unfold do_generate, do_complete, do_explain, do_refactor, do_debug,
      complete_code, refactor_code, debug_code;
    preserved_steps.
Qed.

Lemma preserves_command_round u : preserves R (command_round g u).
Proof.
  unfold command_round.
  apply preserves_bind; [apply preserves_print | intros _].
  apply preserves_bind; [apply preserves_input | intros line].
  apply preserves_dispatch.
Qed.

Lemma preserves_command_loop : preserves R (command_loop g).
Proof. apply preserves_while, preserves_command_round. Qed.

End Branches.

End Terminal.

End Preserved.

(** ** The log only grows *)

Lemma extends_refl Q w : extends Q w w.
Proof.
  repeat split. exists []. split; [now rewrite app_nil_r | constructor].
Qed.

Lemma extends_trans Q a b c : extends Q a b -> extends Q b c -> extends Q a c.
Proof.
  intros (He & Ho & n1 & Hr & Hq) (He' & Ho' & n2 & Hr' & Hq').
  split; [congruence |]. split; [congruence |].
  exists (n1 ++ n2). split; [now rewrite Hr', Hr, <- app_assoc |].
  now apply Forall_app.
Qed.

Lemma extends_emit Q w chunks : extends Q w (emit chunks w).
Proof.
  repeat split. exists []. split; [simpl; now rewrite app_nil_r | constructor].
Qed.

Lemma extends_read Q w line rest :
  stdin w = line :: rest -> extends Q w (set_stdin rest w).
Proof.
  intros _. repeat split. exists [].
  split; [simpl; now rewrite app_nil_r | constructor].
Qed.

Lemma extends_log (Q : Request -> Prop) w r : Q r -> extends Q w (log_request r w).
Proof.
  intros H. repeat split. exists [r]. split; [reflexivity |].
  now repeat constructor.
Qed.

Lemma extends_impl (P Q : Request -> Prop) w w' :
  (forall r, P r -> Q r) -> extends P w w' -> extends Q w w'.
Proof.
  intros H (He & Ho & new & Hr & Hn). repeat split; try assumption.
  exists new. split; [assumption | eapply Forall_impl; eauto].
Qed.

Lemma extends_generate_code g p l :
  preserves (extends (from_generator g)) (generate_code g p l).
Proof.
  intros w r w' H. rewrite generate_code_run in H. injection H as _ <-.
  apply extends_log. repeat split.
Qed.

Lemma extends_explain_code g c :
  preserves (extends (from_generator g)) (explain_code g c).
Proof.
  intros w r w' H. rewrite explain_code_run in H. injection H as _ <-.
  apply extends_log. repeat split.
Qed.

Lemma extends_command_loop g :
  preserves (extends (from_generator g)) (command_loop g).
Proof.
  apply preserves_command_loop;
    first [ apply extends_refl | apply extends_trans | apply extends_emit
          | apply extends_read | apply extends_generate_code
          | apply extends_explain_code ].
Qed.

(** * The entry points as a whole *)

Lemma direct_mode_run prompt w g :
  fst (__init__ w) = Ok g ->
  direct_mode prompt w
    = (Ok tt,
       emit [str (answer "Error generating code: "
                    (client g (length (requests w))
                       (generate_request g prompt None))) +:+ NL]
         (log_request (generate_request g prompt None)
            (emit [generating_text] w))).
Proof.
  intros H. unfold direct_mode, try_except, bind at 1.
  rewrite init_run, H. unfold bind at 1, print at 1, write.
  unfold bind. rewrite generate_code_run. reflexivity.
Qed.

Lemma tame_interactive_mode : tame interactive_mode.
Proof.
  intros w r w' H. destruct (init_cases w) as [[g Hg] | [e He]].
  - rewrite (interactive_mode_run w g Hg) in H.
    apply tame_command_loop in H as (Hi & Ho & Hr). simpl in Hi, Ho.
    split; [assumption |]. split; [| assumption].
    etrans; [apply prefix_app_r; reflexivity | exact Ho].
  - rewrite (interactive_mode_config_failure w e He) in H
      by (eapply is_ValueError_class, init_error_class, He).
    injection H as <- <-. simpl.
    split; [reflexivity |]. split; [apply prefix_app_r; reflexivity | exact I].
Qed.

Lemma tame_direct_mode prompt : tame (direct_mode prompt).
Proof.
  intros w r w' H. destruct (init_cases w) as [[g Hg] | [e He]].
  - rewrite (direct_mode_run prompt w g Hg) in H. injection H as <- <-. simpl.
    split; [reflexivity |]. split; [| exact I].
    rewrite <- app_assoc. apply prefix_app_r. reflexivity.
  - rewrite (direct_mode_config_failure prompt w e He) in H
      by (eapply is_ValueError_class, init_error_class, He).
    injection H as <- <-. simpl.
    split; [reflexivity |]. split; [apply prefix_app_r; reflexivity | exact I].
Qed.

Lemma direct_mode_returns prompt w :
  fst (direct_mode prompt w) = Ok tt
  /\ stdin (snd (direct_mode prompt w)) = stdin w.
Proof.
  destruct (init_cases w) as [[g Hg] | [e He]].
  - now rewrite (direct_mode_run prompt w g Hg).
  - rewrite (direct_mode_config_failure prompt w e He)
      by (eapply is_ValueError_class, init_error_class, He).
    now split.
Qed.

(** X6.  With arguments on the command line and a generator that can
    be built, the script joins the arguments with single spaces, sends
    that text as the user message of one request with the plain system
    message, writes the announcement and then the answer, reads nothing
    from the terminal, and ends with status 0, also when the call
    failed. *)
Theorem direct_mode_sends_the_arguments
    (w : World) (prog a : string) (args : list string)
    (g : CodexGenerator.t) (Hinit : fst (__init__ w) = Ok g) :
  let prompt := join " " (a :: args) in
  let req := generate_request g prompt None in
  let text :=
    answer "Error generating code: " (client g (length (requests w)) req) in
  run (prog :: a :: args) w
    = (Some 0,
       emit [str text +:+ NL] (log_request req (emit [generating_text] w)))
  /\ instruction "user" req = [prompt]
  /\ instruction "system" req = [system_base].
Proof.
  cbv zeta. split; [| split; reflexivity].
  unfold run, main.
  replace (1 <? length (prog :: a :: args))%nat with true by reflexivity.
  change (tail (prog :: a :: args)) with (a :: args).
  now rewrite (direct_mode_run _ w g Hinit).
Qed.

Lemma direct_mode_sends_the_arguments_witness :
  let w := answering_world key_env ["never read"] in
  let w' := snd (run ["main.py"; "reverse"; "a"; "list"] w) in
  fst (run ["main.py"; "reverse"; "a"; "list"] w) = Some 0
  /\ map (instruction "user") (requests w') = [["reverse a list"]]
  /\ stdout w' = [generating_text; "def f(): pass" +:+ NL]
  /\ stdin w' = ["never read"].
Proof.
  cbv zeta.
  destruct (direct_mode_sends_the_arguments
              (answering_world key_env ["never read"])
              "main.py" "reverse" ["a"; "list"]
              {| api_key := "sk-test";
                 client := answering_client "def f(): pass";
                 model := "gpt-4"; max_tokens := 1000;
                 temperature := 0.7%float |})
    as (Hrun & _); [vm_compute; reflexivity |].
  rewrite Hrun. repeat split.
Defined.

Lemma from_generator_configured w g r :
  fst (__init__ w) = Ok g -> from_generator g r -> configured (environ w) r.
Proof.
  intros Hg (Hm & Hl & Hr).
  destruct (init_fields w g Hg) as (_ & _ & _ & Hmodel & Hlimit & _).
  unfold configured. rewrite Hm, Hl. repeat split; assumption.
Qed.

Lemma extends_main argv w : extends (configured (environ w)) w (snd (main argv w)).
Proof.
  unfold main. destruct (init_cases w) as [[g Hg] | [e He]];
    destruct (1 <? length argv)%nat.
  - rewrite (direct_mode_run _ w g Hg). simpl.
    eapply extends_trans; [apply extends_emit |].
    eapply extends_trans; [| apply extends_emit].
    apply extends_log. eapply from_generator_configured; [eassumption |].
    repeat split.
  - rewrite (interactive_mode_run w g Hg).
    eapply extends_trans; [apply (extends_emit _ w menu_text) |].
    destruct (command_loop g (emit menu_text w)) as [r w'] eqn:L.
    apply extends_command_loop in L. simpl.
    eapply extends_impl; [| exact L].
    intros q. now apply from_generator_configured.
  - rewrite (direct_mode_config_failure _ w e He)
      by (eapply is_ValueError_class, init_error_class, He).
    apply extends_emit.
  - rewrite (interactive_mode_config_failure w e He)
      by (eapply is_ValueError_class, init_error_class, He).
    apply extends_emit.
Qed.

(** X7.  Whatever the command line, the input and the service, a run of
    the script never changes the environment, never removes a request
    from the log, and every request it adds has the configured model
    ([MODEL_NAME] or "gpt-4"), the configured limit ([MAX_TOKENS] read
    by [int()], or 1000) and exactly two messages, a system message
    followed by a user message. *)
Theorem requests_follow_configuration (argv : list string) (w : World) :
  let w' := snd (run argv w) in
  environ w' = environ w
  /\ exists new,
       requests w' = requests w ++ new
       /\ Forall (fun r =>
                    req_model r = default "gpt-4" (environ w !! "MODEL_NAME")
                    /\ match environ w !! "MAX_TOKENS" with
                       | Some s => int_of_str s = inr (req_max_tokens r)
                       | None => req_max_tokens r = 1000
                       end
                    /\ map role (req_messages r) = ["system"; "user"]) new.
Proof.
  cbv zeta. unfold run.
  pose proof (extends_main argv w) as (He & _ & new & Hn & Hq).
  destruct (main argv w) as [r w']. simpl in *. split; [assumption |].
  exists new. split; [assumption | exact Hq].
Qed.

Lemma tame_main argv : tame (main argv).
Proof.
  unfold main. destruct (1 <? length argv)%nat;
    [apply tame_direct_mode | apply tame_interactive_mode].
Qed.

(** X8.  A run of the script reads lines only from the front of the
    input, only adds to the output, and ends with status 0 or with
    status 1; it ends with status 1 only in interactive mode, with the
    [EOFError] of a read at the end of the input.  With arguments on
    the command line the status is always 0 and no line is read. *)
Theorem exit_status_of_run (argv : list string) (w : World) :
  let st := fst (run argv w) in
  let w' := snd (run argv w) in
  stdin w' `suffix_of` stdin w
  /\ stdout w `prefix_of` stdout w'
  /\ (st = Some 0
      \/ (st = Some 1
          /\ fst (main argv w) = Raise EOF_error
          /\ stdin w' = []
          /\ (length argv <= 1)%nat))
  /\ ((1 < length argv)%nat -> st = Some 0 /\ stdin w' = stdin w).
Proof.
  cbv zeta. unfold run.
  destruct (main argv w) as [r w'] eqn:Hm. simpl.
  pose proof (tame_main argv _ _ _ Hm) as (Hi & Ho & Hr).
  split; [assumption |]. split; [assumption |].
  assert (Hdirect : (1 < length argv)%nat -> r = Ok tt /\ stdin w' = stdin w).
  { intros Hl. unfold main in Hm. apply Nat.ltb_lt in Hl. rewrite Hl in Hm.
    pose proof (direct_mode_returns (join " " (tail argv)) w) as [H1 H2].
    rewrite Hm in H1, H2. now split. }
  split.
  - destruct r as [[] | e |]; [now left | right | contradiction].
    destruct Hr as [-> Hs]. repeat split; [assumption |].
    destruct (Nat.le_gt_cases (length argv) 1) as [Hle | Hgt]; [assumption |].
    now destruct (Hdirect Hgt).
  - intros Hl. destruct (Hdirect Hl) as [-> Hs]. now split.
Qed.

Lemma exit_status_of_run_witness :
  fst (run ["main.py"; "hello"] (sample_world key_env ["unread"])) = Some 0
  /\ stdin (snd (run ["main.py"; "hello"] (sample_world key_env ["unread"])))
     = ["unread"].
Proof.
  apply (exit_status_of_run ["main.py"; "hello"]
           (sample_world key_env ["unread"])).
  simpl. lia.
Defined.

(** * More about the command loop *)

Lemma split_at_END_none l :
  Forall (fun x => strip x <> "END") l -> split_at_END l = None.
Proof.
  induction 1 as [| x l Hx Hl IH]; [reflexivity |]. simpl.
  apply String.eqb_neq in Hx. now rewrite Hx, IH.
Qed.

(** X9.  The loop that reads a block of code takes the lines up to the
    first line that is END once stripped, joins them with newlines
    without changing them, and leaves the lines after that line
    unread.  The line with END itself is dropped. *)
Theorem read_code_reads_up_to_END
    (w : World) (block rest : list string) (e : string)
    (Hblock : Forall (fun l => strip l <> "END") block)
    (Hend : strip e = "END")
    (Hin : stdin w = block ++ e :: rest) :
  read_code w = (Ok (join NL block), set_stdin rest w).
Proof.
  rewrite read_code_run, Hin. now rewrite (split_at_END_app _ _ _ Hblock Hend).
Qed.

Lemma read_code_reads_up_to_END_witness :
  let w := sample_world ∅ ["def f():"; "  end"; ""; "  END  "; "2"] in
  read_code w
    = (Ok ("def f():" +:+ NL +:+ "  end" +:+ NL +:+ ""), set_stdin ["2"] w).
Proof.
  cbv zeta.
  apply (read_code_reads_up_to_END
           (sample_world ∅ ["def f():"; "  end"; ""; "  END  "; "2"])
           ["def f():"; "  end"; ""] ["2"] "  END  ");
    [repeat constructor; vm_compute; discriminate | reflexivity | reflexivity].
Defined.

Ltac read_to_the_end H :=
  unfold heading, bind, print, write; simpl;
  rewrite read_code_run; simpl; rewrite (split_at_END_none _ H).

(** X10.  When no line of the remaining input is END once stripped, a
    command that reads a block of code uses up the input and stops with
    [EOFError]: the lines read so far are never sent. *)
Theorem unterminated_block_is_never_sent
    (g : CodexGenerator.t) (w : World)
    (Hnone : Forall (fun l => strip l <> "END") (stdin w)) :
  forall m, In m [do_complete g; do_explain g; do_refactor g; do_debug g] ->
    fst (m w) = Raise EOF_error
    /\ sent m w = []
    /\ stdin (snd (m w)) = [].
Proof.
  intros m Hm. simpl in Hm.
  destruct Hm as [<- | [<- | [<- | [<- | []]]]];
    unfold sent, do_complete, do_explain, do_refactor, do_debug;
    read_to_the_end Hnone; (split; [reflexivity |]);
    (split; [apply drop_all | reflexivity]).
Qed.

Lemma unterminated_block_is_never_sent_witness :
  fst (do_explain sample_generator (sample_world ∅ ["x = 1"; "end"]))
    = Raise EOF_error
  /\ sent (do_explain sample_generator) (sample_world ∅ ["x = 1"; "end"]) = [].
Proof.
  destruct (unterminated_block_is_never_sent sample_generator
              (sample_world ∅ ["x = 1"; "end"])) with
    (m := do_explain sample_generator) as (H1 & H2 & _);
    [repeat constructor; vm_compute; discriminate
    | right; left; reflexivity |].
  split; [exact H1 | exact H2].
Defined.

(** X11.  A line that reads "6", "quit" or "exit" once stripped and in
    lower case ends the loop at once: the goodbye is written, no
    request is sent and the lines after it stay unread. *)
Theorem quit_leaves_the_loop
    (g : CodexGenerator.t) (w : World) (line : string) (rest : list string)
    (Hin : stdin w = line :: rest)
    (Hquit : In (lower (strip line)) quit_tokens) :
  command_loop g w = (Ok tt, emit [goodbye_text] (asked rest w))
  /\ sent (command_loop g) w = []
  /\ stdin (snd (command_loop g w)) = rest.
Proof.
  assert (H : command_loop g w = (Ok tt, emit [goodbye_text] (asked rest w))).
  { unfold command_loop.
    rewrite while_true_unfold by apply command_round_shrinks.
    rewrite (command_round_run _ _ _ _ _ Hin). unfold dispatch.
    apply str_in_In in Hquit. now rewrite Hquit. }
  split; [exact H |]. unfold sent. rewrite H. simpl.
  split; [apply drop_all | reflexivity].
Qed.

Lemma quit_leaves_the_loop_witness :
  command_loop sample_generator (sample_world ∅ ["  EXIT "; "1"; "x"])
    = (Ok tt,
       emit [goodbye_text] (asked ["1"; "x"] (sample_world ∅ ["  EXIT "; "1"; "x"]))).
Proof.
  apply (quit_leaves_the_loop sample_generator
           (sample_world ∅ ["  EXIT "; "1"; "x"]) "  EXIT " ["1"; "x"]);
    [reflexivity | vm_compute; auto].
Defined.




(** X13.  The explain command reads the block of code and nothing
    more, writes the heading before the call and the answer after it,
    and sends one request, the one [explain_code] builds for the lines
    joined with newlines. *)
Theorem explain_command_run
    (g : CodexGenerator.t) (w : World) (block rest : list string) (e : string)
    (Hblock : Forall (fun l => strip l <> "END") block)
    (Hend : strip e = "END")
    (Hin : stdin w = block ++ e :: rest) :
  let req := explain_request g (join NL block) in
  let text :=
    answer "Error explaining code: " (client g (length (requests w)) req) in
  let w' := snd (do_explain g w) in
  fst (do_explain g w) = Ok tt
  /\ stdin w' = rest
  /\ requests w' = requests w ++ [req]
  /\ stdout w'
     = stdout w
       ++ [(NL +:+ "Enter code to explain (type 'END' on a new line when done):")
           +:+ NL;
           (NL +:+ rule) +:+ NL; "Explanation:" +:+ NL; rule +:+ NL;
           str text +:+ NL].
Proof.
  cbv zeta. unfold do_explain. read_block Hblock Hend Hin.
  rewrite explain_code_run. simpl. repeat split.
  now rewrite <- !app_assoc.
Qed.

Lemma explain_command_run_witness :
  let w := answering_world ∅ ["x = 1"; "END"; "quit"] in
  fst (do_explain sample_generator w) = Ok tt
  /\ stdin (snd (do_explain sample_generator w)) = ["quit"]
  /\ requests (snd (do_explain sample_generator w))
     = [explain_request sample_generator "x = 1"].
Proof.
  cbv zeta.
  destruct (explain_command_run sample_generator
              (answering_world ∅ ["x = 1"; "END"; "quit"])
              ["x = 1"] ["quit"] "END")
    as (H1 & H2 & H3 & _);
    [repeat constructor; vm_compute; discriminate | reflexivity | reflexivity |].
  split; [exact H1 |]. split; [exact H2 | exact H3].
Defined.

(** ** Counting requests *)
























(** ** Blank fields *)

Lemma lstrip_all_space s :
  all_space s = true -> lstrip_with isspace s = "".
Proof.
  induction s as [| c s IH]; [reflexivity |]. simpl.
  destruct (isspace c); [exact IH | discriminate].
Qed.

Lemma lstrip_not_all_space s :
  all_space s = false ->
  exists c t, lstrip_with isspace s = String c t /\ isspace c = false.
Proof.
  induction s as [| c s IH]; [discriminate |]. simpl.
  destruct (isspace c) eqn:E; [exact IH | eauto].
Qed.

Lemma strip_empty_iff s : strip s = "" <-> all_space s = true.
Proof.
  unfold strip, strip_with. split.
  - intros H. destruct (all_space s) eqn:E; [reflexivity | exfalso].
    destruct (lstrip_not_all_space s E) as (c & t & Hl & Hc).
    rewrite Hl in H. simpl in H. rewrite Hc in H.
    now destruct (rstrip_with isspace t).
  - intros H. now rewrite lstrip_all_space.
Qed.

Lemma system_message_plain_iff L :
  system_message (if truthy L then Some L else None) = system_base <-> L = "".
Proof.
  destruct L as [| c L]; [easy |]. split; [| discriminate].
  unfold system_message. simpl. intros H. apply append_same_l in H.
  discriminate H.
Qed.

(** X15.  In interactive mode an optional field counts as absent
    exactly when the line typed for it holds nothing but whitespace:
    the system message of a generate command is the plain one, and the
    user message of a complete or debug command has no suffix, if and
    only if every character of that line is whitespace. *)
Theorem field_is_absent_iff_blank
    (g : CodexGenerator.t) (w : World)
    (prompt aux e : string) (block rest : list string)
    (Hblock : Forall (fun l => strip l <> "END") block)
    (Hend : strip e = "END") :
  let code := join NL block in
  (stdin w = prompt :: aux :: rest ->
   exists r, sent (do_generate g) w = [r]
             /\ (instruction "system" r = [system_base]
                 <-> all_space aux = true))
  /\ (stdin w = block ++ e :: aux :: rest ->
      (exists r, sent (do_complete g) w = [r]
                 /\ (instruction "user" r
                       = ["Complete the following code:" +:+ NL +:+ NL +:+ code]
                     <-> all_space aux = true))
      /\ (exists r, sent (do_debug g) w = [r]
                    /\ (instruction "user" r
                          = ["Debug and fix the following code:"
                             +:+ NL +:+ NL +:+ code]
                        <-> all_space aux = true))).
Proof.
  cbv zeta. split; [| split].
  - intros H. eexists. split; [exact (do_generate_sends _ _ _ _ _ H) |].
    rewrite <- strip_empty_iff, <- system_message_plain_iff.
    unfold instruction. simpl. split; [now intros [= ->] | now intros ->].
  - eexists. split; [eapply do_complete_sends; eassumption |].
    rewrite <- strip_empty_iff. unfold instruction. simpl. split.
    + intros [= E]. destruct (strip aux) as [| c s]; [reflexivity |].
      unfold complete_prompt in E. simpl in E. apply append_same_l in E.
      discriminate E.
    + now intros ->.
  - eexists. split; [eapply do_debug_sends; eassumption |].
    rewrite <- strip_empty_iff. unfold instruction. simpl. split.
    + intros [= E]. destruct (strip aux) as [| c s]; [reflexivity |].
      unfold debug_prompt in E. simpl in E. apply append_same_l in E.
      discriminate E.
    + now intros ->.
Qed.

Lemma field_is_absent_iff_blank_witness :
  exists r,
    sent (do_generate sample_generator)
      (sample_world ∅ ["reverse a list"; String (chr 9) "  "]) = [r]
    /\ instruction "system" r = [system_base].
Proof.
  assert (Hb : Forall (fun l => strip l <> "END") []) by constructor.
  destruct (field_is_absent_iff_blank sample_generator
              (sample_world ∅ ["reverse a list"; String (chr 9) "  "])
              "reverse a list" (String (chr 9) "  ") "END" [] [] Hb eq_refl)
    as (Hgen & _).
  destruct (Hgen eq_refl) as (r & Hr & Hiff).
  exists r. split; [exact Hr | apply Hiff; reflexivity].
Defined.

(** * What the user sees *)

(** X16.  Interactive mode always starts by writing the menu, before it
    looks for the key: the menu is followed by the error when the
    generator cannot be built, and by the first question otherwise. *)
Theorem menu_comes_first (w : World) :
  exists more,
    stdout (snd (interactive_mode w)) = stdout w ++ menu_text ++ more
    /\ ((exists e, fst (__init__ w) = Raise e /\ more = [report_text e])
        \/ (exists g rest, fst (__init__ w) = Ok g
                           /\ more = question_text :: command_prompt :: rest)).
Proof.
  destruct (init_cases w) as [[g Hg] | [e He]].
  - rewrite (interactive_mode_run w g Hg).
    destruct (command_loop_asks_first g (emit menu_text w)) as [more Hm].
    exists ([question_text; command_prompt] ++ more).
    split; [rewrite Hm; simpl; now rewrite <- app_assoc |].
    right. exists g, more. now split.
  - rewrite (interactive_mode_config_failure w e He)
      by (eapply is_ValueError_class, init_error_class, He).
    exists [report_text e]. split; [reflexivity |]. left. eauto.
Qed.

(** X17.  When the service answers with a first choice that has no
    text, the method returns [None] and direct mode prints the word
    None. *)
Theorem missing_text_prints_None
    (w : World) (prompt : string) (g : CodexGenerator.t)
    (r : Response) (others : list (option string))
    (Hinit : fst (__init__ w) = Ok g)
    (Hcall : client g (length (requests w)) (generate_request g prompt None)
             = inr r)
    (Hnone : choices r = None :: others) :
  fst (generate_code g prompt None w) = Ok None
  /\ stdout (snd (direct_mode prompt w))
     = stdout w ++ [generating_text; "None" +:+ NL].
Proof.
  rewrite generate_code_run, (direct_mode_run prompt w g Hinit), Hcall.
  simpl. rewrite Hnone. simpl. split; [reflexivity |].
  now rewrite <- app_assoc.
Qed.

Lemma missing_text_prints_None_witness :
  let w :=
    {| environ := key_env; stdin := []; stdout := []; requests := [];
       OpenAI := fun _ _ _ => inr {| choices := [None] |} |} in
  stdout (snd (direct_mode "hello" w)) = [generating_text; "None" +:+ NL].
Proof.
  cbv zeta.
  destruct (missing_text_prints_None
              {| environ := key_env; stdin := []; stdout := []; requests := [];
                 OpenAI := fun _ _ _ => inr {| choices := [None] |} |}
              "hello"
              {| api_key := "sk-test";
                 client := fun _ _ => inr {| choices := [None] |};
                 model := "gpt-4"; max_tokens := 1000;
                 temperature := 0.7%float |}
              {| choices := [None] |} [])
    as [_ H]; [vm_compute; reflexivity | reflexivity | reflexivity |].
  exact H.
Defined.

(** X18.  A failing call does not end the session: a generate command
    with its two lines of input always finishes its round, whatever the
    service does, having read exactly those lines and sent one request,
    and the loop goes on with the next command. *)
Theorem generate_round_always_continues
    (g : CodexGenerator.t) (w : World)
    (line prompt aux : string) (rest : list string)
    (Hin : stdin w = line :: prompt :: aux :: rest)
    (Hcmd : In (lower (strip line)) generate_tokens) :
  exists w1,
    command_round g tt w = (Ok (Continue tt), w1)
    /\ stdin w1 = rest
    /\ (exists r, requests w1 = requests w ++ [r]
                  /\ instruction "user" r = [prompt])
    /\ command_loop g w = command_loop g w1.
Proof.
  destruct (command_round g tt w) as [r1 w1] eqn:R.
  assert (Hr : r1 = Ok (Continue tt) /\ stdin w1 = rest
               /\ requests w1
                  = requests w
                    ++ [generate_request g prompt
                          (if truthy (strip aux) then Some (strip aux)
                           else None)]).
  { rewrite (command_round_run _ _ _ _ _ Hin), dispatch_generate in R
      by assumption.
    unfold do_generate, heading, bind, print, input, bind, write, read_line
      in R.
    simpl in R. rewrite generate_code_run in R. simpl in R.
    injection R as <- <-. simpl. repeat split. }
  destruct Hr as (-> & Hs & Hq). exists w1.
  split; [reflexivity |]. split; [exact Hs |].
  split; [eexists; split; [exact Hq | reflexivity] |].
  unfold command_loop at 1.
  rewrite while_true_unfold by apply command_round_shrinks.
  now rewrite R.
Qed.

Lemma generate_round_always_continues_witness :
  exists w1,
    command_round sample_generator tt
      (sample_world ∅ ["1"; "reverse a list"; ""; "quit"])
      = (Ok (Continue tt), w1)
    /\ stdin w1 = ["quit"].
Proof.
  destruct (generate_round_always_continues sample_generator
              (sample_world ∅ ["1"; "reverse a list"; ""; "quit"])
              "1" "reverse a list" "" ["quit"] eq_refl)
    as (w1 & H1 & H2 & _); [vm_compute; auto |].
  exists w1. split; [exact H1 | exact H2].
Defined.
